(** * The join-waitlist edge function

    A shallow embedding of [supabase/functions/join-waitlist/index.ts]
    and of the tables of
    [supabase/migrations/20240101000000_initial_schema.sql].

    - [JS]       the JavaScript values a request body parses to, and the
                 string methods the handler calls;
    - [Supabase] the two query chains of the handler, as an interface;
    - [Handler]  the function passed to [serve], written against that
                 interface;
    - [Pg]       the two tables of the migration with their constraints,
                 as an instance of the interface;
    - [Contract] what the handler answers whatever the client does;
    - [Storage]  what it answers and stores on the two tables;
    - [Frontend] [joinWaitlist] and [getDisplayMessage] of the integration
                 guide, the page that calls the function;
    - [Replies], [Entries], [Emails] and [Page] more of the same contract.

    Strings are sequences of code units below 256, so that every code
    unit is a character of its own. *)

From Stdlib Require Import String Ascii Bool Arith Lia.
From stdpp Require Import gmap strings list fin_maps stringmap.

Local Open Scope string_scope.
Set Warnings "-register-all".

(* ===================================================================== *)
(** ** JavaScript values and string methods *)
(* ===================================================================== *)

Module JS.

(** What [JSON.parse] can return, plus [undefined] for an absent property.
    A number is kept as the text [String(n)] gives for it: zero and minus
    zero are both ["0"], every other finite number has a text of its own,
    and a number too large to be finite is ["Infinity"] or ["-Infinity"]. *)
Inductive JSValue : Type :=
| JUndefined
| JNull
| JBool (b : bool)
| JNumber (repr : string)
| JString (s : string)
| JArray (items : list JSValue)
| JObject (props : list (string * JSValue)).

(** The errors the handler can see thrown. *)
Inductive JSError : Type :=
| SyntaxError (msg : string)
| TypeError (msg : string)
| Thrown (code msg : string).

Inductive Outcome (A : Type) : Type :=
| Return (a : A)
| Throw (e : JSError).
Arguments Return {A} a.
Arguments Throw {A} e.

(** [!v] is [negb (truthy v)]. *)
Definition truthy (v : JSValue) : bool :=
  match v with
  | JUndefined | JNull => false
  | JBool b => b
  | JNumber r => negb (String.eqb r "0")
  | JString s => negb (String.eqb s EmptyString)
  | JArray _ | JObject _ => true
  end.

(** [a || b] *)
Definition or_else (a b : JSValue) : JSValue := if truthy a then a else b.

(** The own property [k] of a parsed object. [props] lists the properties
    of the object in the order JavaScript enumerates them; arrays and
    primitives have none of the names the handler reads. *)
Fixpoint own_property (k : string) (props : list (string * JSValue)) : JSValue :=
  match props with
  | [] => JUndefined
  | (k', v) :: rest => if String.eqb k k' then v else own_property k rest
  end.

Definition get (v : JSValue) (k : string) : JSValue :=
  match v with
  | JObject props => own_property k props
  | _ => JUndefined
  end.

(** [const { applicationId, email, sourceUrl, country } = v] *)
Definition destructure (v : JSValue)
  : Outcome (JSValue * JSValue * JSValue * JSValue) :=
  match v with
  | JUndefined | JNull =>
      Throw (TypeError "Cannot destructure property 'applicationId'")
  | _ => Return (get v "applicationId", get v "email",
                 get v "sourceUrl", get v "country")
  end.

Definition code (c : ascii) : nat := nat_of_ascii c.

Definition in_range (lo hi : nat) (c : ascii) : bool :=
  ((lo <=? code c) && (code c <=? hi))%nat.

(** [String.prototype.toLowerCase] on code units below 256: A-Z, and
    U+00C0 to U+00DE without the multiplication sign U+00D7. *)
Definition lower_char (c : ascii) : ascii :=
  if in_range 65 90 c || (in_range 192 222 c && negb (code c =? 215)%nat)
  then ascii_of_nat (code c + 32)
  else c.

Fixpoint toLowerCase (s : string) : string :=
  match s with
  | EmptyString => EmptyString
  | String c rest => String (lower_char c) (toLowerCase rest)
  end.

(** White space and line terminators below 256: TAB, LF, VT, FF, CR,
    SPACE and NO-BREAK SPACE. *)
Definition is_space (c : ascii) : bool :=
  in_range 9 13 c || (code c =? 32)%nat || (code c =? 160)%nat.

Fixpoint trimStart (s : string) : string :=
  match s with
  | EmptyString => EmptyString
  | String c rest => if is_space c then trimStart rest else s
  end.

Fixpoint rev_onto (s acc : string) : string :=
  match s with
  | EmptyString => acc
  | String c rest => rev_onto rest (String c acc)
  end.

Definition reverse (s : string) : string := rev_onto s EmptyString.

Definition trimEnd (s : string) : string := reverse (trimStart (reverse s)).

Definition trim (s : string) : string := trimEnd (trimStart s).

(** [email.toLowerCase().trim()]: a string has the method, no other truthy
    value does. *)
Definition toLowerCase_trim (email : JSValue) : Outcome string :=
  match email with
  | JString s => Return (trim (toLowerCase s))
  | _ => Throw (TypeError "email.toLowerCase is not a function")
  end.

Fixpoint join (sep : string) (parts : list string) : string :=
  match parts with
  | [] => EmptyString
  | [p] => p
  | p :: rest => p ++ sep ++ join sep rest
  end.

(** The object has a property of its own under [k]. *)
Definition has_own (k : string) (props : list (string * JSValue)) : bool :=
  existsb (fun kv => String.eqb k (fst kv)) props.

(** [String(v)], what a template literal makes of [v]. An array joins the
    texts of its elements, the first that throws ending it. An object
    parsed from JSON has no function of its own: with a [toString] of its
    own it cannot be converted, and without one it is given the text of
    [Object.prototype.toString]. *)
Fixpoint toString (v : JSValue) : Outcome string :=
  match v with
  | JUndefined => Return "undefined"
  | JNull => Return "null"
  | JBool b => Return (if b then "true" else "false")
  | JNumber r => Return r
  | JString s => Return s
  | JArray items =>
      match
        (fix elements (l : list JSValue) : Outcome (list string) :=
           match l with
           | [] => Return []
           | x :: rest =>
               match match x with
                     | JUndefined | JNull => Return EmptyString
                     | _ => toString x
                     end with
               | Throw e => Throw e
               | Return text =>
                   match elements rest with
                   | Throw e => Throw e
                   | Return texts => Return (text :: texts)
                   end
               end
           end) items
      with
      | Throw e => Throw e
      | Return texts => Return (join "," texts)
      end
  | JObject props =>
      if has_own "toString" props
      then Throw (TypeError "Cannot convert object to primitive value")
      else Return "[object Object]"
  end.

Definition backslash : ascii := ascii_of_nat 92.

Definition hex_digit (n : nat) : ascii :=
  ascii_of_nat (if (n <? 10)%nat then 48 + n else 87 + n).

(** One code unit inside a JSON string literal. *)
Definition quote_char (c : ascii) : string :=
  let n := code c in
  if (n =? 34)%nat || (n =? 92)%nat then String backslash (String c EmptyString)
  else if (n =? 8)%nat then "\b"
  else if (n =? 9)%nat then "\t"
  else if (n =? 10)%nat then "\n"
  else if (n =? 12)%nat then "\f"
  else if (n =? 13)%nat then "\r"
  else if (n <? 32)%nat then
    "\u00" ++ String (hex_digit (n / 16))
                 (String (hex_digit (n mod 16)) EmptyString)
  else String c EmptyString.

Fixpoint quote_chars (s : string) : string :=
  match s with
  | EmptyString => EmptyString
  | String c rest => quote_char c ++ quote_chars rest
  end.

Definition dquote : string := String (ascii_of_nat 34) EmptyString.

Definition quote (s : string) : string := dquote ++ quote_chars s ++ dquote.

(** The number is [Infinity] or [-Infinity], which [JSON.parse] gives for
    a number too large; it never gives [NaN]. *)
Definition non_finite (r : string) : bool :=
  String.eqb r "Infinity" || String.eqb r "-Infinity".

(** [JSON.stringify(v)] for a value inside the object the client sends; a
    number that is not finite is printed [null]. *)
Fixpoint stringify (v : JSValue) : string :=
  match v with
  | JUndefined | JNull => "null"
  | JBool b => if b then "true" else "false"
  | JNumber r => if non_finite r then "null" else r
  | JString s => quote s
  | JArray items => "[" ++ join "," (map stringify items) ++ "]"
  | JObject props =>
      "{" ++ join "," (map (fun kv => quote (fst kv) ++ ":" ++ stringify (snd kv))
                           props) ++ "}"
  end.

End JS.

(* ===================================================================== *)
(** ** The Supabase client, as the handler uses it *)
(* ===================================================================== *)

Module Supabase.
Import JS.

Record PostgrestError : Type := {
  code : string;
  message : string;
}.

(** [{ data, error }], what awaiting a query chain resolves to; [data] is
    [null] when there is an error. *)
Record QueryResult : Type := {
  data : option string;
  error : option PostgrestError;
}.

Definition resolved (value : string) : QueryResult :=
  {| data := Some value; error := None |}.

Definition failed (c msg : string) : QueryResult :=
  {| data := None; error := Some {| code := c; message := msg |} |}.

(** The object literal given to [.insert]. *)
Record NewEntry : Type := {
  application_id : JSValue;
  email : string;
  source_url : JSValue;
  country : JSValue;
  created_at : string;
}.

(** The two chains of the handler, over a server state [DB]:
    - [from('applications').select('application_id')
         .eq('application_id', v).single()], whose [data] is the selected
      column of the one row found; [.eq] writes [v] into the filter with a
      template literal, so the chain throws, before anything is sent, for
      a [v] that has no text;
    - [from('waitlist_entries').insert(row).select('id').single()], whose
      [data] is the [id] of the row inserted. *)
Class Client (DB : Type) : Type := {
  select_application : JSValue -> DB -> Outcome QueryResult * DB;
  insert_entry : NewEntry -> DB -> QueryResult * DB;
}.

End Supabase.

(* ===================================================================== *)
(** ** The handler *)
(* ===================================================================== *)

Module Handler.
Import JS Supabase.

Record Request : Type := {
  method : string;
  (** what [await req.json()] gives: the parsed body, or a rejection *)
  json : Outcome JSValue;
}.

Inductive Body : Type :=
| Text (s : string)
| Json (success : bool) (id : option string) (message : string).

Record Response : Type := {
  status : nat;
  headers : list (string * string);
  body : Body;
}.

Definition corsHeaders : list (string * string) :=
  [ ("Access-Control-Allow-Origin", "*");
    ("Access-Control-Allow-Headers",
     "authorization, x-client-info, apikey, content-type");
    ("Access-Control-Allow-Methods", "POST, OPTIONS") ].

Definition json_response (st : nat) (b : Body) : Response :=
  {| status := st;
     headers := corsHeaders ++ [("Content-Type", "application/json")];
     body := b |}.

(** [new Response('ok', { headers: corsHeaders })]: the status is 200, and
    a text body given without a content type is given the one of a text. *)
Definition ok_response : Response :=
  {| status := 200;
     headers := corsHeaders ++ [("content-type", "text/plain;charset=UTF-8")];
     body := Text "ok" |}.

(** [response.headers.get(name)]: names are compared without regard to
    case, and the values under one name are joined. The pairs of [headers]
    are in no order that is meant. *)
Definition header (name : string) (r : Response) : option string :=
  match filter (fun kv => toLowerCase (fst kv) = toLowerCase name) (headers r) with
  | [] => None
  | found => Some (join ", " (map snd found))
  end.

Definition method_not_allowed : Response :=
  json_response 405 (Json false None "Method not allowed").
Definition missing_required_fields : Response :=
  json_response 400 (Json false None "Missing required fields").
Definition invalid_application_id : Response :=
  json_response 400 (Json false None "Invalid application ID").
Definition email_already_registered : Response :=
  json_response 409 (Json false None "Email already registered").
Definition joined (id : string) : Response :=
  json_response 201 (Json true (Some id) "Successfully joined waitlist").
Definition internal_server_error : Response :=
  json_response 500 (Json false None "Internal server error").

(** The three required members are all truthy. *)
Definition required_present (applicationId email sourceUrl : JSValue) : bool :=
  truthy applicationId && truthy email && truthy sourceUrl.

Section WithClient.
Context {DB : Type} `{Client DB}.

(** Code that reads and writes the server state and may throw. *)
Definition M (A : Type) : Type := DB -> Outcome A * DB.

Definition ret {A} (a : A) : M A := fun db => (Return a, db).
Definition throw {A} (e : JSError) : M A := fun db => (Throw e, db).
Definition lift {A} (o : Outcome A) : M A := fun db => (o, db).
Definition await {A} (q : DB -> A * DB) : M A :=
  fun db => let (a, db') := q db in (Return a, db').
Definition bind {A B} (m : M A) (k : A -> M B) : M B :=
  fun db => match m db with
            | (Return a, db') => k a db'
            | (Throw e, db') => (Throw e, db')
            end.

Local Notation "x <~ m ;; k" := (bind m (fun x => k))
  (at level 100, m at next level, right associativity).

(** Lines 61-86: the insert and what is made of its result. *)
Definition insert_step (row : NewEntry) : M Response :=
  r <~ await (insert_entry row) ;;
  match error r with
  | Some e =>
      if String.eqb (code e) "23505"
      then ret email_already_registered
      else throw (Thrown (code e) (message e))
  | None =>
      match data r with
      | Some id => ret (joined id)
      | None => throw (TypeError "Cannot read properties of null (reading 'id')")
      end
  end.

(** Lines 36-58 and the object literal of lines 63-69: either the
    response of an early return, or the row to insert. *)
Definition validate (now : string) (req : Request) : M (Response + NewEntry) :=
  parsed <~ lift (json req) ;;
  fields <~ lift (destructure parsed) ;;
  let '(applicationId, email, sourceUrl, country) := fields in
  if negb (truthy applicationId) || negb (truthy email) || negb (truthy sourceUrl)
  then ret (inl missing_required_fields)
  else
    r <~ select_application applicationId ;;
    if bool_decide (is_Some (error r)) || negb (bool_decide (is_Some (data r)))
    then ret (inl invalid_application_id)
    else
      normalized <~ lift (toLowerCase_trim email) ;;
      ret (inr {| application_id := applicationId;
                  email := normalized;
                  source_url := sourceUrl;
                  country := or_else country JNull;
                  created_at := now |}).

(** The body of [try]. [createClient] only makes the object the two chains
    are called on, which is the instance of [Client] here. *)
Definition try_block (now : string) (req : Request) : M Response :=
  v <~ validate now req ;;
  match v with
  | inl early => ret early
  | inr row => insert_step row
  end.

Record Served : Type := {
  response : Response;
  database : DB;
  (** what [console.error] was given *)
  console : list JSError;
}.

(** The function passed to [serve]; [now] is [new Date().toISOString()]. *)
Definition serve (now : string) (req : Request) (db : DB) : Served :=
  if String.eqb (method req) "OPTIONS" then
    {| response := ok_response; database := db; console := [] |}
  else if negb (String.eqb (method req) "POST") then
    {| response := method_not_allowed; database := db; console := [] |}
  else
    match try_block now req db with
    | (Return r, db') => {| response := r; database := db'; console := [] |}
    | (Throw e, db') =>
        {| response := internal_server_error; database := db'; console := [e] |}
    end.

(** The request is a POST that gets as far as [.insert(row)], the server
    being in state [db1] then. *)
Definition reaches_insert (now : string) (req : Request) (db : DB)
    (row : NewEntry) (db1 : DB) : Prop :=
  method req = "POST" /\ validate now req db = (Return (inr row), db1).

(** Something is thrown inside [try]. *)
Definition raises (now : string) (req : Request) (db : DB)
    (e : JSError) (db' : DB) : Prop :=
  method req = "POST" /\ try_block now req db = (Throw e, db').

(** What is made of the result of the insert. *)
Inductive inserted : QueryResult -> DB -> Served -> Prop :=
| inserted_duplicate r2 db2 err :
    error r2 = Some err -> code err = "23505" ->
    inserted r2 db2
      {| response := email_already_registered; database := db2; console := [] |}
| inserted_failed r2 db2 err :
    error r2 = Some err -> code err <> "23505" ->
    inserted r2 db2
      {| response := internal_server_error; database := db2;
         console := [Thrown (code err) (message err)] |}
| inserted_no_data r2 db2 :
    error r2 = None -> data r2 = None ->
    inserted r2 db2
      {| response := internal_server_error; database := db2;
         console := [TypeError "Cannot read properties of null (reading 'id')"] |}
| inserted_row r2 db2 id :
    error r2 = None -> data r2 = Some id ->
    inserted r2 db2
      {| response := joined id; database := db2; console := [] |}.

(** What a POST does to the server and what it answers, step by step. *)
Inductive trace (now : string) (req : Request) (db : DB) : Served -> Prop :=
| trace_rejected_json e :
    json req = Throw e ->
    trace now req db
      {| response := internal_server_error; database := db; console := [e] |}
| trace_rejected_body v e :
    json req = Return v -> destructure v = Throw e ->
    trace now req db
      {| response := internal_server_error; database := db; console := [e] |}
| trace_missing v a e s c :
    json req = Return v -> destructure v = Return (a, e, s, c) ->
    required_present a e s = false ->
    trace now req db
      {| response := missing_required_fields; database := db; console := [] |}
| trace_lookup_throws v a e s c err db1 :
    json req = Return v -> destructure v = Return (a, e, s, c) ->
    required_present a e s = true ->
    select_application a db = (Throw err, db1) ->
    trace now req db
      {| response := internal_server_error; database := db1; console := [err] |}
| trace_invalid_application v a e s c r db1 :
    json req = Return v -> destructure v = Return (a, e, s, c) ->
    required_present a e s = true ->
    select_application a db = (Return r, db1) ->
    is_Some (error r) \/ data r = None ->
    trace now req db
      {| response := invalid_application_id; database := db1; console := [] |}
| trace_not_a_string v a e s c r app db1 err :
    json req = Return v -> destructure v = Return (a, e, s, c) ->
    required_present a e s = true ->
    select_application a db = (Return r, db1) ->
    error r = None -> data r = Some app ->
    toLowerCase_trim e = Throw err ->
    trace now req db
      {| response := internal_server_error; database := db1; console := [err] |}
| trace_insert v a e s c r app db1 mail row r2 db2 out :
    json req = Return v -> destructure v = Return (a, e, s, c) ->
    required_present a e s = true ->
    select_application a db = (Return r, db1) ->
    error r = None -> data r = Some app ->
    toLowerCase_trim e = Return mail ->
    row = {| application_id := a; email := mail; source_url := s;
             country := or_else c JNull; created_at := now |} ->
    insert_entry row db1 = (r2, db2) ->
    inserted r2 db2 out ->
    trace now req db out.

End WithClient.

End Handler.

(* ===================================================================== *)
(** ** The tables of the migration *)
(* ===================================================================== *)

Module Pg.
Import JS.

(** A value of type UUID, in the text PostgreSQL prints for it. *)
Abbreviation uuid := string.

Definition is_hex (c : ascii) : bool :=
  in_range 48 57 c || in_range 65 70 c || in_range 97 102 c.

(** Reads [n] more bytes of a UUID, two hexadecimal digits each; a hyphen
    may follow every second byte but the last. Gives the digits in lower
    case, grouped 8-4-4-4-12, and what is left of the input. *)
Fixpoint uuid_bytes (n : nat) (src : string) : option (string * string) :=
  match n with
  | 0 => Some (EmptyString, src)
  | S n' =>
      match src with
      | String a (String b rest) =>
          if is_hex a && is_hex b then
            let i := 16 - n in
            let rest' :=
              match rest with
              | String "-" r => if (i mod 2 =? 1)%nat && (i <? 15)%nat then r else rest
              | _ => rest
              end in
            match uuid_bytes n' rest' with
            | Some (digits, tail) =>
                let group :=
                  if (i =? 3)%nat || (i =? 5)%nat || (i =? 7)%nat || (i =? 9)%nat
                  then String "-" digits else digits in
                Some (String (lower_char a) (String (lower_char b) group), tail)
            | None => None
            end
          else None
      | _ => None
      end
  end.

(** The input function of type UUID: the digits, in either case, with or
    without hyphens, with or without braces around them. *)
Definition uuid_in (s : string) : option uuid :=
  let (braces, src) :=
    match s with
    | String "{" r => (true, r)
    | _ => (false, s)
    end in
  match uuid_bytes 16 src with
  | Some (digits, tail) =>
      let tail' := if braces : bool
                   then match tail with String "}" t => Some t | _ => None end
                   else Some tail in
      match tail' with
      | Some EmptyString => Some digits
      | _ => None
      end
  | None => None
  end.

Definition PgResult (A : Type) : Type := Supabase.PostgrestError + A.

Definition raise {A} (c msg : string) : PgResult A :=
  inl {| Supabase.code := c; Supabase.message := msg |}.

(** The text a column is given for a member of the JSON object sent;
    [None] is NULL. [JSON.stringify] leaves out a member that is
    [undefined] and sends [null] for a number that is not finite. *)
Definition json_as_text (v : JSValue) : option string :=
  match v with
  | JUndefined | JNull => None
  | JBool b => Some (if b then "true" else "false")
  | JNumber r => if non_finite r then None else Some r
  | JString s => Some s
  | JArray _ | JObject _ => Some (stringify v)
  end.

Fixpoint all_chars (p : ascii -> bool) (s : string) : bool :=
  match s with
  | EmptyString => true
  | String c rest => p c && all_chars p rest
  end.

Fixpoint take (n : nat) (s : string) : string :=
  match n, s with
  | S n', String c rest => String c (take n' rest)
  | _, _ => EmptyString
  end.

Fixpoint drop (n : nat) (s : string) : string :=
  match n, s with
  | S n', String _ rest => drop n' rest
  | _, _ => s
  end.

Definition not_nul (c : ascii) : bool := negb (code c =? 0)%nat.

(** TEXT: any string without the character of code zero. *)
Definition text_in (s : string) : PgResult string :=
  if all_chars not_nul s then inr s
  else raise "22P05" "unsupported Unicode escape sequence".

(** VARCHAR(n): at most [n] characters; spaces beyond them are dropped,
    anything else beyond them is an error. *)
Definition varchar_in (n : nat) (s : string) : PgResult string :=
  match text_in s with
  | inl e => inl e
  | inr _ =>
      if (String.length s <=? n)%nat then inr s
      else if all_chars (fun c => (code c =? 32)%nat) (drop n s) then inr (take n s)
      else raise "22001" "value too long for type character varying"
  end.

Definition is_alpha (c : ascii) : bool := in_range 65 90 c || in_range 97 122 c.
Definition is_alnum (c : ascii) : bool := is_alpha c || in_range 48 57 c.
Definition one_of (set : string) (c : ascii) : bool :=
  negb (all_chars (fun d => negb (Ascii.eqb c d)) set).

(** [[A-Za-z0-9._%+-]] and [[A-Za-z0-9.-]] *)
Definition local_char (c : ascii) : bool := is_alnum c || one_of "._%+-" c.
Definition domain_char (c : ascii) : bool := is_alnum c || one_of ".-" c.

(** The text before the first [sep] and the text after it. *)
Fixpoint split_first (sep : ascii) (s : string) : option (string * string) :=
  match s with
  | EmptyString => None
  | String c rest =>
      if Ascii.eqb c sep then Some (EmptyString, rest)
      else match split_first sep rest with
           | Some (before, after) => Some (String c before, after)
           | None => None
           end
  end.

(** The text before the last [sep] and the text after it. *)
Fixpoint split_last (sep : ascii) (s : string) : option (string * string) :=
  match s with
  | EmptyString => None
  | String c rest =>
      match split_last sep rest with
      | Some (before, after) => Some (String c before, after)
      | None => if Ascii.eqb c sep then Some (EmptyString, rest) else None
      end
  end.

(** The constraint [valid_email_format]:
    [email ~* '^[A-Za-z0-9._%+-]+@[A-Za-z0-9.-]+\.[A-Za-z]{2,}$']. No
    class holds an at sign, so the local part ends at the first one; the
    last class holds no dot, so it starts after the last one. *)
Definition valid_email_format (s : string) : bool :=
  match split_first "@" s with
  | Some (loc, rest) =>
      match split_last "." rest with
      | Some (dom, tld) =>
          (1 <=? String.length loc)%nat && all_chars local_char loc &&
          (1 <=? String.length dom)%nat && all_chars domain_char dom &&
          (2 <=? String.length tld)%nat && all_chars is_alpha tld
      | None => false
      end
  | None => false
  end.

(** The pattern read member by member: a local part, an at sign, a domain,
    a dot and a top-level part of two letters or more. *)
Definition matches_email_pattern (s : string) : Prop :=
  exists loc dom tld,
    s = loc ++ String "@" (dom ++ String "." tld) /\
    1 <= String.length loc /\ all_chars local_char loc = true /\
    1 <= String.length dom /\ all_chars domain_char dom = true /\
    2 <= String.length tld /\ all_chars is_alpha tld = true.

Record Application : Type := {
  application_name : string;
  app_created_at : string;
}.

Record WaitlistEntry : Type := {
  application_id : uuid;
  email : string;
  source_url : string;
  country : option string;
  created_at : string;
}.

(** Each table is a map from its primary key to the rest of the row.
    [random_uuids] are the values [gen_random_uuid()] draws, one call after
    another, and [drawn] counts the calls made. *)
Record Database : Type := {
  applications : gmap uuid Application;
  waitlist_entries : gmap uuid WaitlistEntry;
  random_uuids : nat -> uuid;
  drawn : nat;
}.

(** The identifier the next [gen_random_uuid()] gives: the value drawn.
    That 122 random bits give the key of a row there is already is left
    out of the model: were the value drawn a key, the first variant of it
    that is no key is taken. *)
Definition next_id (db : Database) : uuid :=
  fresh_string (random_uuids db (drawn db)) (waitlist_entries db).

Definition gen_random_uuid (db : Database) : uuid * Database :=
  (next_id db,
   {| applications := applications db;
      waitlist_entries := waitlist_entries db;
      random_uuids := random_uuids db;
      drawn := S (drawn db) |}).

Definition with_entry (id : uuid) (row : WaitlistEntry) (db : Database) : Database :=
  {| applications := applications db;
     waitlist_entries := <[id := row]> (waitlist_entries db);
     random_uuids := random_uuids db;
     drawn := drawn db |}.

Definition not_null {A} (column : string) (v : option A) : PgResult A :=
  match v with
  | Some a => inr a
  | None => raise "23502" column
  end.

Definition and_then {A B} (r : PgResult A) (k : A -> PgResult B) : PgResult B :=
  match r with
  | inl e => inl e
  | inr a => k a
  end.

(** The column [country VARCHAR(2)], which may be NULL. *)
Definition country_in (v : JSValue) : PgResult (option string) :=
  match json_as_text v with
  | None => inr None
  | Some c => and_then (varchar_in 2 c) (fun c' => inr (Some c'))
  end.

(** The columns of the new row, each read by the input function of its
    type. *)
Definition row_of (p : Supabase.NewEntry) : PgResult WaitlistEntry :=
  and_then (not_null "application_id" (json_as_text (Supabase.application_id p)))
    (fun app_text =>
  and_then (match uuid_in app_text with
            | Some u => inr u
            | None => raise "22P02" "invalid input syntax for type uuid"
            end) (fun app =>
  and_then (varchar_in 320 (Supabase.email p)) (fun em =>
  and_then (not_null "source_url" (json_as_text (Supabase.source_url p)))
    (fun url_text =>
  and_then (text_in url_text) (fun url =>
  and_then (country_in (Supabase.country p)) (fun ctry =>
  inr {| application_id := app;
         email := em;
         source_url := url;
         country := ctry;
         created_at := Supabase.created_at p |})))))).

(** [UNIQUE(application_id, email)]: the two columns of the key. *)
Definition unique_key (e : WaitlistEntry) : uuid * string :=
  (application_id e, email e).

Definition key_taken (k : uuid * string) (entries : gmap uuid WaitlistEntry)
  : Prop :=
  map_Exists (fun _ e => unique_key e = k) entries.

Definition rejected (c msg : string) (db : Database)
  : Supabase.QueryResult * Database :=
  (Supabase.failed c msg, db).

(** INSERT INTO waitlist_entries ... RETURNING id: the columns are read,
    then the check constraint, the two unique indexes and the foreign key
    are tried; only a row that passes them all is stored. *)
Definition insert_entry (p : Supabase.NewEntry) (db : Database)
  : Supabase.QueryResult * Database :=
  let (id, db) := gen_random_uuid db in
  match row_of p with
  | inl e => (Supabase.failed (Supabase.code e) (Supabase.message e), db)
  | inr row =>
      if negb (valid_email_format (email row)) then
        rejected "23514" "valid_email_format" db
      else if bool_decide (is_Some (waitlist_entries db !! id)) then
        rejected "23505" "waitlist_entries_pkey" db
      else if bool_decide (key_taken (unique_key row) (waitlist_entries db)) then
        rejected "23505" "waitlist_entries_application_id_email_key" db
      else if bool_decide (applications db !! application_id row = None) then
        rejected "23503" "waitlist_entries_application_id_fkey" db
      else (Supabase.resolved id, with_entry id row db)
  end.

(** SELECT application_id FROM applications WHERE application_id = text,
    which must give one row. *)
Definition select_by_id (text : string) (db : Database) : Supabase.QueryResult :=
  match uuid_in text with
  | None => Supabase.failed "22P02" "invalid input syntax for type uuid"
  | Some u =>
      match applications db !! u with
      | Some _ => Supabase.resolved u
      | None => Supabase.failed "PGRST116" "The result contains 0 rows"
      end
  end.

(** The chain of the lookup: the value is written into the filter, which
    throws when the value has no text, and the query is sent. *)
Definition select_application (v : JSValue) (db : Database)
  : Outcome Supabase.QueryResult * Database :=
  match toString v with
  | Throw e => (Throw e, db)
  | Return text => (Return (select_by_id text db), db)
  end.

#[export] Instance client : Supabase.Client Database := {|
  Supabase.select_application := select_application;
  Supabase.insert_entry := insert_entry;
|}.

End Pg.

(* ===================================================================== *)
(** ** A client whose server cannot be reached *)
(* ===================================================================== *)

Module Outage.

Inductive Unreachable : Type := unreachable.

(** Both chains resolve to the error the client makes of a failed fetch. *)
Definition fetch_failed (db : Unreachable) : Supabase.QueryResult * Unreachable :=
  (Supabase.failed EmptyString "TypeError: fetch failed", db).

(** The lookup still writes its value into the filter first. *)
Definition select_application (v : JS.JSValue) (db : Unreachable)
  : JS.Outcome Supabase.QueryResult * Unreachable :=
  match JS.toString v with
  | JS.Throw e => (JS.Throw e, db)
  | JS.Return _ => (JS.Return (fst (fetch_failed db)), db)
  end.

#[export] Instance client : Supabase.Client Unreachable := {|
  Supabase.select_application := select_application;
  Supabase.insert_entry := fun _ => fetch_failed;
|}.

End Outage.

(* ===================================================================== *)
(** ** The handler on the tables of the migration *)
(* ===================================================================== *)

Module Waitlist.
Import JS Handler.
Import Pg.
#[local] Existing Instance Pg.client.

(** What the handler stores for an email. *)
Definition normalize (raw : string) : string := trim (toLowerCase raw).





(** The identifier the next [gen_random_uuid()] gives, and that it is the
    key of no row yet. *)
Definition next_uuid (db : Database) : uuid := fst (gen_random_uuid db).

Definition fresh (db : Database) : Prop :=
  waitlist_entries db !! next_uuid db = None.

(** The object the handler gives to [.insert] for a body with the members
    [a], [raw] (a string), [s] and [c]. *)
Definition new_entry (now : string) (a : JSValue) (raw : string)
    (s c : JSValue) : Supabase.NewEntry :=
  {| Supabase.application_id := a;
     Supabase.email := normalize raw;
     Supabase.source_url := s;
     Supabase.country := or_else c JNull;
     Supabase.created_at := now |}.

(** The body of the request has the three required members, with a string
    for the email and the identifier of an application of [db]. *)
Definition well_formed (req : Request) (db : Database)
    (a : JSValue) (raw : string) (s c : JSValue) : Prop :=
  method req = "POST" /\
  (exists v, json req = Return v /\ destructure v = Return (a, JString raw, s, c)) /\
  required_present a (JString raw) s = true /\
  (exists text app, toString a = Return text /\
                    uuid_in text = Some app /\
                    is_Some (applications db !! app)).

(** In state [db] the request passes every check of the handler and every
    constraint of the table, and [row] is what is stored for it. *)
Definition accepted (now : string) (req : Request) (db : Database)
    (row : WaitlistEntry) : Prop :=
  exists a raw s c,
    well_formed req db a raw s c /\
    row_of (new_entry now a raw s c) = inr row /\
    email row = normalize raw /\
    valid_email_format (email row) = true /\
    ~ key_taken (unique_key row) (waitlist_entries db) /\
    is_Some (applications db !! application_id row).

(** In state [db] the request passes every check of the handler, and the
    key of its row is taken. *)
Definition settled (req : Request) (db : Database) : Prop :=
  exists a raw s c,
    well_formed req db a raw s c /\
    forall now, exists row,
      row_of (new_entry now a raw s c) = inr row /\
      valid_email_format (email row) = true /\
      key_taken (unique_key row) (waitlist_entries db).

(** What the server is after [accepted]. *)
Definition stored (row : WaitlistEntry) (db : Database) : Database :=
  with_entry (next_uuid db) row (snd (gen_random_uuid db)).

(** The server has the same two tables, and the answer is a refusal. *)
Definition refused (db : Database) (out : Served) : Prop :=
  applications (database out) = applications db /\
  waitlist_entries (database out) = waitlist_entries db /\
  In (status (response out)) [200; 400; 405; 409; 500].

(** [UNIQUE(application_id, email)], as a property of the table. *)
Definition unique_pairs (db : Database) : Prop :=
  forall i j e1 e2,
    waitlist_entries db !! i = Some e1 ->
    waitlist_entries db !! j = Some e2 ->
    unique_key e1 = unique_key e2 -> i = j.

(** Every stored email is the normalized form of some text. *)
Definition normalized_emails (db : Database) : Prop :=
  forall i e, waitlist_entries db !! i = Some e ->
    exists raw, email e = normalize raw.

(** A row of [applications] created out of band. *)
Definition with_application (id : uuid) (app : Application) (db : Database)
  : Database :=
  {| applications := <[id := app]> (applications db);
     waitlist_entries := waitlist_entries db;
     random_uuids := random_uuids db;
     drawn := drawn db |}.

(** The states the server can be in: no entry at first, then applications
    are created and requests are served, in any order. *)
Inductive reachable : Database -> Prop :=
| reachable_empty db :
    waitlist_entries db = ∅ -> reachable db
| reachable_application id app db :
    reachable db -> reachable (with_application id app db)
| reachable_serve now req db :
    reachable db -> reachable (database (serve now req db)).

(** The same request sent again, once at each of [times]; the responses. *)
Fixpoint replay (req : Request) (times : list string) (db : Database)
  : list Response :=
  match times with
  | [] => []
  | now :: later =>
      let r := serve now req db in
      response r :: replay req later (database r)
  end.

End Waitlist.

(* ===================================================================== *)
(** ** Sample requests and states *)
(* ===================================================================== *)

Module Sample.
Import JS Handler.
#[local] Existing Instance Pg.client.

Definition app1 : string := "48bc5a4b-f8e4-4c4e-8832-1a766715641e".
Definition id1 : string := "11111111-1111-4111-8111-111111111111".
Definition id2 : string := "22222222-2222-4222-8222-222222222222".
Definition noon : string := "2024-01-01T12:00:00.000Z".
Definition later : string := "2024-01-01T12:00:01.000Z".

Definition signup (app mail : string) (ctry : JSValue) : JSValue :=
  JObject [ ("applicationId", JString app);
            ("email", JString mail);
            ("sourceUrl", JString "http://localhost:3000");
            ("country", ctry) ].

Definition post (v : JSValue) : Request :=
  {| method := "POST"; json := Return v |}.

(** One application and no entry. *)
Definition db0 : Pg.Database :=
  {| Pg.applications :=
       {[ app1 := {| Pg.application_name := "Test App";
                     Pg.app_created_at := "2024-01-01T00:00:00.000Z" |} ]};
     Pg.waitlist_entries := ∅;
     Pg.random_uuids := fun n => match n with 0 => id1 | _ => id2 end;
     Pg.drawn := 0 |}.

Definition join_us : Request := post (signup app1 "  User@Example.com " (JString "US")).
Definition join_usa : Request := post (signup app1 "a@example.com" (JString "USA")).
Definition join_elsewhere : Request :=
  post (signup "00000000-0000-4000-8000-000000000000" "a@example.com" (JString "US")).
Definition no_email : Request := post (signup app1 EmptyString (JString "US")).
Definition null_body : Request := post JNull.
Definition not_json : Request :=
  {| method := "POST"; json := Throw (SyntaxError "Unexpected token") |}.
Definition bad_email : Request := post (signup app1 "invalid-email" (JString "US")).
Definition preflight : Request :=
  {| method := "OPTIONS"; json := Throw (SyntaxError "Unexpected end of JSON input") |}.
Definition get_request : Request :=
  {| method := "GET"; json := Throw (SyntaxError "Unexpected end of JSON input") |}.

(** [db0] after [join_us]. *)
Definition db1 : Pg.Database := database (serve noon join_us db0).

End Sample.

(* ===================================================================== *)
(** ** Requests one after another, and what the tables hold *)
(* ===================================================================== *)

Module Sessions.
Import JS Handler.
Import Pg Waitlist.
#[local] Existing Instance Pg.client.

(** The request is a POST whose body has strings for the three required
    members, and [c] for the country. *)
Definition submits (req : Request) (app_text raw url : string) (c : JSValue)
  : Prop :=
  method req = "POST" /\
  exists v, json req = Return v /\
            get v "applicationId" = JString app_text /\
            get v "email" = JString raw /\
            get v "sourceUrl" = JString url /\
            get v "country" = c.

(** Requests served one after another, each at its time: the responses in
    order, and the server after the last. *)
Fixpoint serve_all (calls : list (string * Request)) (db : Database)
  : list Response * Database :=
  match calls with
  | [] => ([], db)
  | (now, req) :: rest =>
      let out := serve now req db in
      let (answers, db') := serve_all rest (database out) in
      (response out :: answers, db')
  end.

(** How many of the responses are 201. *)
Definition created (answers : list Response) : nat :=
  length (filter (fun r => status r = 201) answers).

(** The constraints the migration puts on a row of [waitlist_entries]:
    the lengths of VARCHAR(320) and VARCHAR(2), [valid_email_format], and
    the reference to [applications]. *)
Definition satisfies_schema (db : Database) : Prop :=
  forall id e, waitlist_entries db !! id = Some e ->
    String.length (email e) <= 320 /\
    valid_email_format (email e) = true /\
    is_Some (applications db !! application_id e) /\
    match country e with
    | Some c => String.length c <= 2
    | None => True
    end.

Definition is_upper (c : ascii) : bool := in_range 65 90 c.

(** The text has none of A-Z. *)
Definition lower_case (s : string) : Prop :=
  all_chars (fun c => negb (is_upper c)) s = true.

(** The first character of the text is no white space. *)
Definition starts_without_space (s : string) : Prop :=
  match s with
  | EmptyString => True
  | String c _ => is_space c = false
  end.

(** The text has no white space at either end. *)
Definition no_outer_space (s : string) : Prop :=
  starts_without_space s /\ starts_without_space (reverse s).

End Sessions.

(* ===================================================================== *)
(** ** The page that calls the function *)
(* ===================================================================== *)

Module Frontend.
Import JS Handler.

(** [WAITLIST_CONFIG] *)
Record Config : Type := {
  SUPABASE_URL : string;
  SUPABASE_ANON_KEY : string;
  APPLICATION_ID : string;
}.

(** What [await response.json()] gives for a response of the handler: the
    object it gave to [JSON.stringify]. The text of the pre-flight is no
    JSON. *)
Definition response_json (r : Response) : Outcome JSValue :=
  match body r with
  | Text s => Throw (SyntaxError "Unexpected token")
  | Json success None message =>
      Return (JObject [("success", JBool success); ("message", JString message)])
  | Json success (Some id) message =>
      Return (JObject [("success", JBool success); ("id", JString id);
                       ("message", JString message)])
  end.

(** The request the handler receives for
    [fetch(url, { method: 'POST', headers, body: JSON.stringify({...}) })]
    with the arguments of [joinWaitlist]; [href] is
    [window.location.href], and no country is [null]. *)
Definition request_of (cfg : Config) (href email : string)
    (country : option string) : Request :=
  {| method := "POST";
     json := Return (JObject
       [ ("applicationId", JString (APPLICATION_ID cfg));
         ("email", JString email);
         ("sourceUrl", JString href);
         ("country", match country with
                     | Some c => JString c
                     | None => JNull
                     end) ]) |}.

(** [error.message] *)
Definition error_message (e : JSError) : string :=
  match e with
  | SyntaxError msg | TypeError msg => msg
  | Thrown _ msg => msg
  end.

(** What [catch] returns. *)
Definition network_error (e : JSError) : JSValue :=
  JObject [ ("success", JBool false);
            ("message", JString ("Network error: " ++ error_message e)) ].

(** [joinWaitlist(email, country = null)] of the basic implementation, as
    the forms call it, with texts. [fetch] is the network: it gives the
    response to a request, or throws. *)
Definition joinWaitlist (cfg : Config) (href : string)
    (fetch : Request -> Outcome Response)
    (email : string) (country : option string) : JSValue :=
  match fetch (request_of cfg href email country) with
  | Return response =>
      match response_json response with
      | Return result => result
      | Throw e => network_error e
      end
  | Throw e => network_error e
  end.

(** The table of [getDisplayMessage]. *)
Definition errorMessages : list (string * string) :=
  [ ("Email already registered",
     "You're already on our waitlist! We'll be in touch soon.");
    ("Invalid application ID", "Something went wrong. Please try again.");
    ("Missing required fields", "Please enter a valid email address.");
    ("Internal server error",
     "Server error. Please try again in a few minutes.") ].

(** The text for a success, byte for byte as the file has it. *)
Definition welcome : string :=
  "ðŸŽ‰ Welcome to the waitlist! We'll notify you when we launch.".

(** The names every object literal inherits; the members under them are
    functions and objects, all truthy. *)
Definition inherited : list string :=
  [ "constructor"; "__defineGetter__"; "__defineSetter__"; "hasOwnProperty";
    "__lookupGetter__"; "__lookupSetter__"; "isPrototypeOf";
    "propertyIsEnumerable"; "toString"; "valueOf"; "__proto__";
    "toLocaleString" ].

Fixpoint own_text (k : string) (table : list (string * string)) : option string :=
  match table with
  | [] => None
  | (k', text) :: rest => if String.eqb k k' then Some text else own_text k rest
  end.

(** What [getDisplayMessage] returns: a text, or an inherited member of
    the table, which is no text. *)
Inductive Display : Type :=
| Shown (text : string)
| Member (name : string).

(** [getDisplayMessage(apiResponse)] *)
Definition getDisplayMessage (apiResponse : JSValue) : Outcome Display :=
  match apiResponse with
  | JUndefined | JNull =>
      Throw (TypeError "Cannot read properties of null (reading 'success')")
  | _ =>
      if truthy (get apiResponse "success") then Return (Shown welcome)
      else
        match toString (get apiResponse "message") with
        | Throw e => Throw e
        | Return key =>
            match own_text key errorMessages with
            | Some text => Return (Shown text)
            | None =>
                if existsb (String.eqb key) inherited then Return (Member key)
                else Return (Shown ("Error: " ++ key))
            end
        end
  end.

(** The texts the table and the success give. *)
Definition friendly : list string := welcome :: map snd errorMessages.

End Frontend.

(* ===================================================================== *)
(** ** More sample requests and states *)
(* ===================================================================== *)

Module MoreSamples.
Import JS Handler Sample.
#[local] Existing Instance Pg.client.





(** A number for the email. *)
Definition numeric_email : Request :=
  post (JObject [ ("applicationId", JString app1);
                  ("email", JNumber "42");
                  ("sourceUrl", JString "http://localhost:3000") ]).

(** What [db1] holds under [id1]. *)
Definition row1 : Pg.WaitlistEntry :=
  {| Pg.application_id := app1;
     Pg.email := "user@example.com";
     Pg.source_url := "http://localhost:3000";
     Pg.country := Some "US";
     Pg.created_at := noon |}.

(** A second address for the first application, and no country. *)
Definition join_second : Request :=
  post (signup app1 "Second@Example.com" JNull).

(** [db1] after [join_second], and what it holds under [id2]. *)
Definition db2 : Pg.Database := database (serve later join_second db1).

Definition row2 : Pg.WaitlistEntry :=
  {| Pg.application_id := app1;
     Pg.email := "second@example.com";
     Pg.source_url := "http://localhost:3000";
     Pg.country := None;
     Pg.created_at := later |}.

(** A number too large to be finite, parsed from [1e999], for the
    sourceUrl and for the country. *)
Definition infinite_url : Request :=
  post (JObject [ ("applicationId", JString app1);
                  ("email", JString "a@example.com");
                  ("sourceUrl", JNumber "Infinity") ]).

Definition infinite_country : Request :=
  post (signup app1 "a@example.com" (JNumber "Infinity")).

(** An object with a member [toString] for the applicationId. *)
Definition object_id : Request :=
  post (JObject [ ("applicationId", JObject [ ("toString", JNumber "1") ]);
                  ("email", JString "a@example.com");
                  ("sourceUrl", JString "http://localhost:3000") ]).

(** The email of [join_us] again, with a country of three letters. *)
Definition join_us_again_usa : Request :=
  post (signup app1 "user@example.com" (JString "USA")).

Definition config : Frontend.Config :=
  {| Frontend.SUPABASE_URL := "http://127.0.0.1:54321";
     Frontend.SUPABASE_ANON_KEY := "anon";
     Frontend.APPLICATION_ID := app1 |}.

(** A network that is down. *)
Definition offline (req : Request) : Outcome Response :=
  Throw (TypeError "Failed to fetch").

End MoreSamples.

(* ===================================================================== *)
(** ** The handler over any client *)
(* ===================================================================== *)

Module HandlerFacts.
Import JS Supabase Handler.

Section AnyClient.
Context {DB : Type} `{Client DB}.

Lemma serve_post now req db :
  method req = "POST" ->
  serve now req db =
    match try_block now req db with
    | (Return r, db') => {| response := r; database := db'; console := [] |}
    | (Throw e, db') =>
        {| response := internal_server_error; database := db'; console := [e] |}
    end.
Proof. intros Hm. unfold serve. rewrite Hm. reflexivity. Qed.

Lemma try_block_early now req db early db1 :
  validate now req db = (Return (inl early), db1) ->
  try_block now req db = (Return early, db1).
Proof. intros Hv. unfold try_block, bind. rewrite Hv. reflexivity. Qed.

Lemma try_block_insert now req db row db1 :
  validate now req db = (Return (inr row), db1) ->
  try_block now req db = insert_step row db1.
Proof. intros Hv. unfold try_block, bind. rewrite Hv. reflexivity. Qed.

Lemma try_block_throw now req db e db1 :
  validate now req db = (Throw e, db1) ->
  try_block now req db = (Throw e, db1).
Proof. intros Hv. unfold try_block, bind. rewrite Hv. reflexivity. Qed.

Lemma required_absent a e s :
  required_present a e s = false ->
  negb (truthy a) || negb (truthy e) || negb (truthy s) = true.
Proof. unfold required_present. destruct (truthy a), (truthy e), (truthy s); auto. Qed.

Lemma required_all a e s :
  required_present a e s = true ->
  negb (truthy a) || negb (truthy e) || negb (truthy s) = false.
Proof. unfold required_present. destruct (truthy a), (truthy e), (truthy s); auto. Qed.

(** [validate], once the body is destructured. *)
Lemma validate_fields now req db v a e s c :
  json req = Return v ->
  destructure v = Return (a, e, s, c) ->
  validate now req db =
    if negb (truthy a) || negb (truthy e) || negb (truthy s)
    then (Return (inl missing_required_fields), db)
    else
      match select_application a db with
      | (Throw err, db1) => (Throw err, db1)
      | (Return r, db1) =>
          if bool_decide (is_Some (error r)) || negb (bool_decide (is_Some (data r)))
          then (Return (inl invalid_application_id), db1)
          else
            match toLowerCase_trim e with
            | Return normalized =>
                (Return (inr {| application_id := a;
                                email := normalized;
                                source_url := s;
                                country := or_else c JNull;
                                created_at := now |}), db1)
            | Throw err => (Throw err, db1)
            end
      end.
Proof.
  intros Hj Hd. unfold validate, bind, lift, ret. rewrite Hj, Hd.
  destruct (negb (truthy a) || negb (truthy e) || negb (truthy s)); [reflexivity|].
  destruct (select_application a db) as [[r|err] db1]; [|reflexivity].
  destruct (bool_decide (is_Some (error r)) || negb (bool_decide (is_Some (data r))));
    [reflexivity|].
  destruct (toLowerCase_trim e); reflexivity.
Qed.

Lemma validate_lookup_throws now req db v a e s c err db1 :
  json req = Return v ->
  destructure v = Return (a, e, s, c) ->
  required_present a e s = true ->
  select_application a db = (Throw err, db1) ->
  validate now req db = (Throw err, db1).
Proof.
  intros Hj Hd Hr Hs. rewrite (validate_fields _ _ _ _ _ _ _ _ Hj Hd).
  rewrite (required_all _ _ _ Hr), Hs. reflexivity.
Qed.

Lemma validate_missing now req db v a e s c :
  json req = Return v ->
  destructure v = Return (a, e, s, c) ->
  required_present a e s = false ->
  validate now req db = (Return (inl missing_required_fields), db).
Proof.
  intros Hj Hd Hr. rewrite (validate_fields _ _ _ _ _ _ _ _ Hj Hd).
  rewrite (required_absent _ _ _ Hr). reflexivity.
Qed.

Lemma validate_lookup_error now req db v a e s c r db1 :
  json req = Return v ->
  destructure v = Return (a, e, s, c) ->
  required_present a e s = true ->
  select_application a db = (Return r, db1) ->
  is_Some (error r) \/ data r = None ->
  validate now req db = (Return (inl invalid_application_id), db1).
Proof.
  intros Hj Hd Hr Hs He. rewrite (validate_fields _ _ _ _ _ _ _ _ Hj Hd).
  rewrite (required_all _ _ _ Hr), Hs.
  destruct He as [He|He].
  - rewrite (bool_decide_eq_true_2 _ He). reflexivity.
  - rewrite He. destruct (bool_decide (is_Some (error r))); reflexivity.
Qed.


Lemma destructure_object v :
  v <> JNull -> v <> JUndefined ->
  destructure v = Return (get v "applicationId", get v "email",
                          get v "sourceUrl", get v "country").
Proof. intros Hn Hu. destruct v; try reflexivity; congruence. Qed.

Lemma insert_step_inserted row db1 r2 db2 :
  insert_entry row db1 = (r2, db2) ->
  inserted r2 db2
    match insert_step row db1 with
    | (Return r, db') => {| response := r; database := db'; console := [] |}
    | (Throw e, db') =>
        {| response := internal_server_error; database := db'; console := [e] |}
    end.
Proof.
  intros Hi. unfold insert_step, bind, await. rewrite Hi.
  destruct (error r2) as [err|] eqn:He.
  - destruct (String.eqb (code err) "23505") eqn:Hc.
    + apply String.eqb_eq in Hc. eapply inserted_duplicate; eauto.
    + apply String.eqb_neq in Hc. eapply inserted_failed; eauto.
  - destruct (data r2) as [id|] eqn:Hd.
    + eapply inserted_row; eauto.
    + eapply inserted_no_data; eauto.
Qed.

(** Every POST is served along one of the traces. *)
Lemma serve_trace now req db :
  method req = "POST" -> trace now req db (serve now req db).
Proof.
  intros Hm. rewrite (serve_post _ _ _ Hm).
  destruct (json req) as [v|e0] eqn:Hj.
  2:{ unfold try_block, validate, bind, lift. rewrite Hj. simpl.
      apply trace_rejected_json; assumption. }
  destruct (destructure v) as [[[[a e] s] c]|e0] eqn:Hd.
  2:{ unfold try_block, validate, bind, lift. rewrite Hj, Hd. simpl.
      eapply trace_rejected_body; eassumption. }
  destruct (required_present a e s) eqn:Hr.
  2:{ rewrite (try_block_early _ _ _ _ _ (validate_missing _ _ _ _ _ _ _ _ Hj Hd Hr)).
      eapply trace_missing; eassumption. }
  destruct (select_application a db) as [[r|err] db1] eqn:Hs.
  2:{ rewrite (try_block_throw _ _ _ _ _
                 (validate_lookup_throws _ _ _ _ _ _ _ _ _ _ Hj Hd Hr Hs)).
      eapply trace_lookup_throws; eassumption. }
  destruct (error r) as [err|] eqn:He.
  { assert (Hor : is_Some (error r) \/ data r = None) by (left; rewrite He; eauto).
    rewrite (try_block_early _ _ _ _ _
               (validate_lookup_error _ _ _ _ _ _ _ _ _ _ Hj Hd Hr Hs Hor)).
    eapply trace_invalid_application; eassumption. }
  destruct (data r) as [app|] eqn:Hdata.
  2:{ assert (Hor : is_Some (error r) \/ data r = None) by (right; assumption).
      rewrite (try_block_early _ _ _ _ _
                 (validate_lookup_error _ _ _ _ _ _ _ _ _ _ Hj Hd Hr Hs Hor)).
      eapply trace_invalid_application; eassumption. }
  assert (Hv := validate_fields now _ db _ _ _ _ _ Hj Hd).
  rewrite (required_all _ _ _ Hr), Hs, He, Hdata in Hv. simpl in Hv.
  destruct (toLowerCase_trim e) as [mail|err] eqn:Hl.
  - rewrite (try_block_insert _ _ _ _ _ Hv).
    destruct (insert_entry {| application_id := a; email := mail; source_url := s;
                              country := or_else c JNull; created_at := now |} db1)
      as [r2 db2] eqn:Hi.
    eapply trace_insert; try eassumption; try reflexivity.
    apply insert_step_inserted. assumption.
  - rewrite (try_block_throw _ _ _ _ _ Hv).
    eapply trace_not_a_string; eassumption.
Qed.

Lemma serve_not_post now req db :
  method req <> "POST" ->
  database (serve now req db) = db /\
  console (serve now req db) = [] /\
  (response (serve now req db) = ok_response \/
   response (serve now req db) = method_not_allowed).
Proof.
  intros Hm. unfold serve.
  destruct (String.eqb (method req) "OPTIONS"); [simpl; auto|].
  destruct (String.eqb (method req) "POST") eqn:Hp.
  - apply String.eqb_eq in Hp. contradiction.
  - simpl; auto.
Qed.

End AnyClient.
End HandlerFacts.

(* ===================================================================== *)
(** ** The contract of the handler, over any client *)
(* ===================================================================== *)

Module Contract.
Import JS Supabase Handler HandlerFacts.

(** C4. For every request reaching the insert step, if the insert fails
    with error code 23505 the handler answers 409 with the body
    [{success:false, message:"Email already registered"}]. *)
Theorem unique_violation_is_409 {DB : Type} `{Client DB}
    now req (db : DB) row db1 r db2 e :
  reaches_insert now req db row db1 ->
  insert_entry row db1 = (r, db2) ->
  error r = Some e ->
  code e = "23505" ->
  response (serve now req db) = email_already_registered /\
  status (response (serve now req db)) = 409.
Proof.
  intros [Hm Hv] Hi He Hc.
  rewrite (serve_post _ _ _ Hm), (try_block_insert _ _ _ _ _ Hv).
  unfold insert_step, bind, await. rewrite Hi, He, Hc. simpl. split; reflexivity.
Qed.

(** C5, amended. For every POST request whose parsed body is not [null]
    and has no truthy value for one of applicationId, email and sourceUrl
    (an empty-string email included), the handler answers 400 with the
    body [{success:false, message:"Missing required fields"}], whichever
    of them are missing, and leaves the server as it was. *)
Theorem missing_field_is_400 {DB : Type} `{Client DB} now req (db : DB) v :
  method req = "POST" ->
  json req = Return v ->
  v <> JNull -> v <> JUndefined ->
  required_present (get v "applicationId") (get v "email") (get v "sourceUrl")
    = false ->
  serve now req db =
    {| response := missing_required_fields; database := db; console := [] |} /\
  status missing_required_fields = 400.
Proof.
  intros Hm Hj Hn Hu Hr. split; [|reflexivity].
  rewrite (serve_post _ _ _ Hm).
  rewrite (try_block_early _ _ _ _ _
             (validate_missing _ _ _ _ _ _ _ _ Hj (destructure_object v Hn Hu) Hr)).
  reflexivity.
Qed.

(** C8. Whenever something is thrown inside [try], whatever it is, the
    handler answers 500 with the fixed body
    [{success:false, message:"Internal server error"}]; what was thrown
    goes to the console and nowhere else. *)
Theorem exception_is_500 {DB : Type} `{Client DB} now req (db : DB) e db' :
  raises now req db e db' ->
  serve now req db =
    {| response := internal_server_error; database := db'; console := [e] |} /\
  status internal_server_error = 500 /\
  body internal_server_error = Json false None "Internal server error".
Proof.
  intros [Hm Ht]. rewrite (serve_post _ _ _ Hm), Ht. repeat split.
Qed.

(** C9. For every POST request whose body is not valid JSON the handler
    answers 500 "Internal server error", not 400 "Missing required
    fields". *)
Theorem invalid_json_is_500 {DB : Type} `{Client DB} now req (db : DB) e :
  method req = "POST" ->
  json req = Throw e ->
  response (serve now req db) = internal_server_error /\
  status (response (serve now req db)) = 500 /\
  response (serve now req db) <> missing_required_fields.
Proof.
  intros Hm Hj. rewrite (serve_post _ _ _ Hm).
  unfold try_block, validate, bind, lift. rewrite Hj. simpl.
  repeat split. discriminate.
Qed.

(** C10. Every error the application lookup returns, whatever its code,
    gives 400 with the body [{success:false, message:"Invalid application
    ID"}]: a lookup that failed because the database could not be reached
    is answered as a client error, not as 500. *)
Theorem lookup_error_is_400 {DB : Type} `{Client DB} now req (db : DB) v r db1 e :
  method req = "POST" ->
  json req = Return v ->
  v <> JNull -> v <> JUndefined ->
  required_present (get v "applicationId") (get v "email") (get v "sourceUrl")
    = true ->
  select_application (get v "applicationId") db = (Return r, db1) ->
  error r = Some e ->
  response (serve now req db) = invalid_application_id /\
  status (response (serve now req db)) = 400.
Proof.
  intros Hm Hj Hn Hu Hr Hs He.
  assert (Hor : is_Some (error r) \/ data r = None) by (left; rewrite He; eauto).
  rewrite (serve_post _ _ _ Hm).
  rewrite (try_block_early _ _ _ _ _
             (validate_lookup_error _ _ _ _ _ _ _ _ _ _ Hj
                (destructure_object v Hn Hu) Hr Hs Hor)).
  split; reflexivity.
Qed.

End Contract.

(* ===================================================================== *)
(** ** The queries on the tables *)
(* ===================================================================== *)

Module PgFacts.
Import JS Pg.

Lemma gen_random_uuid_tables db :
  applications (snd (gen_random_uuid db)) = applications db /\
  waitlist_entries (snd (gen_random_uuid db)) = waitlist_entries db.
Proof. split; reflexivity. Qed.

(** The identifier generated is the key of no row. *)
Lemma next_id_fresh db : waitlist_entries db !! next_id db = None.
Proof. apply fresh_string_fresh. Qed.

(** It is the value drawn when that is the key of no row. *)
Lemma next_id_drawn db :
  waitlist_entries db !! random_uuids db (drawn db) = None ->
  next_id db = random_uuids db (drawn db).
Proof. intros Hd. unfold next_id, fresh_string. rewrite Hd. reflexivity. Qed.

(** The lookup reads and does not write. *)
Lemma select_application_reads v db r db1 :
  select_application v db = (r, db1) -> db1 = db.
Proof.
  unfold select_application. intros Hs.
  destruct (toString v); congruence.
Qed.

(** It answers when the value has a text, and throws when it has none. *)
Lemma select_application_text v db text :
  toString v = Return text ->
  select_application v db = (Return (select_by_id text db), db).
Proof. intros Ht. unfold select_application. rewrite Ht. reflexivity. Qed.

Lemma select_application_throws v db e :
  toString v = Throw e -> select_application v db = (Throw e, db).
Proof. intros Ht. unfold select_application. rewrite Ht. reflexivity. Qed.

Lemma select_application_inv v db r db1 :
  select_application v db = (Return r, db1) ->
  exists text, toString v = Return text /\ r = select_by_id text db /\ db1 = db.
Proof.
  unfold select_application. intros Hs.
  destruct (toString v) as [text|e]; [|discriminate].
  exists text. inversion Hs; subst. auto.
Qed.

Lemma select_by_id_found text db app :
  Supabase.error (select_by_id text db) = None ->
  Supabase.data (select_by_id text db) = Some app ->
  uuid_in text = Some app /\ is_Some (applications db !! app).
Proof.
  unfold select_by_id. intros He Hd.
  destruct (uuid_in text) as [u|]; [|discriminate].
  destruct (applications db !! u) as [x|] eqn:Hu; [|discriminate].
  simpl in Hd. inversion Hd; subst. eauto.
Qed.

Lemma select_by_id_some text db app :
  uuid_in text = Some app -> is_Some (applications db !! app) ->
  select_by_id text db = Supabase.resolved app.
Proof. intros Hu [x Hx]. unfold select_by_id. rewrite Hu, Hx. reflexivity. Qed.

Lemma select_by_id_none text db app :
  uuid_in text = Some app -> applications db !! app = None ->
  exists c msg, select_by_id text db = Supabase.failed c msg.
Proof. intros Hu Hx. unfold select_by_id. rewrite Hu, Hx. eauto. Qed.

Lemma select_by_id_malformed text db :
  uuid_in text = None ->
  exists c msg, select_by_id text db = Supabase.failed c msg.
Proof. intros Hu. unfold select_by_id. rewrite Hu. eauto. Qed.

Lemma select_application_found v db r db1 app :
  select_application v db = (Return r, db1) ->
  Supabase.error r = None -> Supabase.data r = Some app ->
  exists text, toString v = Return text /\ uuid_in text = Some app /\
               is_Some (applications db !! app).
Proof.
  intros Hs He Hd.
  destruct (select_application_inv _ _ _ _ Hs) as (text & Ht & -> & ->).
  exists text. split; [assumption|]. apply select_by_id_found; assumption.
Qed.

Lemma select_application_some v db text app :
  toString v = Return text ->
  uuid_in text = Some app -> is_Some (applications db !! app) ->
  select_application v db = (Return (Supabase.resolved app), db).
Proof.
  intros Ht Hu Hx. rewrite (select_application_text _ _ _ Ht).
  rewrite (select_by_id_some _ _ _ Hu Hx). reflexivity.
Qed.

Lemma select_application_none v db text app :
  toString v = Return text ->
  uuid_in text = Some app -> applications db !! app = None ->
  exists c msg, select_application v db = (Return (Supabase.failed c msg), db).
Proof.
  intros Ht Hu Hx. rewrite (select_application_text _ _ _ Ht).
  destruct (select_by_id_none _ _ _ Hu Hx) as (c & msg & ->). eauto.
Qed.

(** The insert stores the row when every constraint holds. *)
Lemma insert_entry_stores p db row :
  row_of p = inr row ->
  valid_email_format (email row) = true ->
  ~ key_taken (unique_key row) (waitlist_entries db) ->
  is_Some (applications db !! application_id row) ->
  insert_entry p db =
    (Supabase.resolved (next_id db),
     with_entry (next_id db) row (snd (gen_random_uuid db))).
Proof.
  intros Hrow Hfmt Hkey [x Happ]. unfold insert_entry. simpl.
  rewrite Hrow, Hfmt. simpl. rewrite (next_id_fresh db).
  rewrite bool_decide_eq_false_2 by (intros [y Hy]; discriminate).
  rewrite (bool_decide_eq_false_2 _ Hkey).
  rewrite Happ. rewrite bool_decide_eq_false_2 by discriminate.
  reflexivity.
Qed.

(** A key that is taken gives the unique violation. *)
Lemma insert_entry_duplicate p db row :
  row_of p = inr row ->
  valid_email_format (email row) = true ->
  key_taken (unique_key row) (waitlist_entries db) ->
  exists msg,
    insert_entry p db = (Supabase.failed "23505" msg, snd (gen_random_uuid db)).
Proof.
  intros Hrow Hfmt Hkey. unfold insert_entry, rejected. simpl.
  rewrite Hrow, Hfmt. simpl.
  destruct (bool_decide (is_Some (waitlist_entries db !! next_id db)));
    [eauto|].
  rewrite (bool_decide_eq_true_2 _ Hkey). eauto.
Qed.

(** Either the insert fails and stores nothing, or it stores one row, under
    a key that was free, and gives that key back. *)
Lemma insert_entry_inv p db r2 db2 :
  insert_entry p db = (r2, db2) ->
  (exists c msg, r2 = Supabase.failed c msg /\ db2 = snd (gen_random_uuid db)) \/
  (exists row,
     r2 = Supabase.resolved (next_id db) /\
     db2 = with_entry (next_id db) row (snd (gen_random_uuid db)) /\
     row_of p = inr row /\
     valid_email_format (email row) = true /\
     waitlist_entries db !! next_id db = None /\
     ~ key_taken (unique_key row) (waitlist_entries db) /\
     is_Some (applications db !! application_id row)).
Proof.
  unfold insert_entry, rejected. simpl. intros Hi.
  destruct (row_of p) as [err|row] eqn:Hrow.
  { left. inversion Hi; subst. eauto. }
  destruct (valid_email_format (email row)) eqn:Hfmt; simpl in Hi.
  2:{ left. inversion Hi; subst. eauto. }
  destruct (bool_decide (is_Some (waitlist_entries db !! next_id db)))
    eqn:Hid.
  { left. inversion Hi; subst. eauto. }
  destruct (bool_decide (key_taken (unique_key row) (waitlist_entries db))) eqn:Hkey.
  { left. inversion Hi; subst. eauto. }
  destruct (bool_decide (applications db !! application_id row = None)) eqn:Happ.
  { left. inversion Hi; subst. eauto. }
  right. exists row. inversion Hi; subst.
  apply bool_decide_eq_false_1 in Hkey, Happ.
  repeat split; try assumption.
  - apply next_id_fresh.
  - destruct (applications db !! application_id row) eqn:E; [eauto|contradiction].
Qed.

End PgFacts.

(* ===================================================================== *)
(** ** Strings *)
(* ===================================================================== *)

Module StringFacts.
Import JS Pg.

Lemma append_nil (y : string) : EmptyString ++ y = y.
Proof. reflexivity. Qed.

Lemma append_cons c (x y : string) : String c x ++ y = String c (x ++ y).
Proof. reflexivity. Qed.

Lemma append_assoc (x y z : string) : (x ++ y) ++ z = x ++ (y ++ z).
Proof.
  induction x as [|c x IH]; [reflexivity|].
  rewrite !append_cons, IH. reflexivity.
Qed.

Lemma length_append (x y : string) :
  String.length (x ++ y) = String.length x + String.length y.
Proof.
  induction x as [|c x IH]; [reflexivity|].
  rewrite append_cons. simpl. rewrite IH. reflexivity.
Qed.

Lemma all_chars_append p (x y : string) :
  all_chars p (x ++ y) = all_chars p x && all_chars p y.
Proof.
  induction x as [|c x IH]; [reflexivity|].
  rewrite append_cons. simpl. rewrite IH. apply andb_assoc.
Qed.

Lemma all_chars_impl (p q : ascii -> bool) s :
  (forall c, p c = true -> q c = true) ->
  all_chars p s = true -> all_chars q s = true.
Proof.
  intros Hpq. induction s as [|c s IH]; simpl; [reflexivity|].
  intros Hs. apply andb_true_iff in Hs as [Hc Hs].
  rewrite (Hpq _ Hc), (IH Hs). reflexivity.
Qed.

Lemma split_first_append sep s before after :
  split_first sep s = Some (before, after) -> s = before ++ String sep after.
Proof.
  revert before. induction s as [|c s IH]; simpl; intros before Hs; [discriminate|].
  destruct (Ascii.eqb c sep) eqn:Hc.
  - apply Ascii.eqb_eq in Hc. inversion Hs; subst. reflexivity.
  - destruct (split_first sep s) as [[b a]|]; [|discriminate].
    inversion Hs; subst. rewrite append_cons, (IH b eq_refl). reflexivity.
Qed.

Lemma split_last_append sep s before after :
  split_last sep s = Some (before, after) -> s = before ++ String sep after.
Proof.
  revert before. induction s as [|c s IH]; simpl; intros before Hs; [discriminate|].
  destruct (split_last sep s) as [[b a]|].
  - inversion Hs; subst. rewrite append_cons, (IH b eq_refl). reflexivity.
  - destruct (Ascii.eqb c sep) eqn:Hc; [|discriminate].
    apply Ascii.eqb_eq in Hc. inversion Hs; subst. reflexivity.
Qed.

Lemma class_without (p : ascii -> bool) (x : ascii) :
  p x = false -> forall c, p c = true -> Ascii.eqb c x = false.
Proof.
  intros Hx c Hc. destruct (Ascii.eqb c x) eqn:Heq; [|reflexivity].
  apply Ascii.eqb_eq in Heq. subst. congruence.
Qed.

Lemma split_first_found sep (before after : string) :
  all_chars (fun c => negb (Ascii.eqb c sep)) before = true ->
  split_first sep (before ++ String sep after) = Some (before, after).
Proof.
  induction before as [|c before IH]; intros Hall.
  - rewrite append_nil. simpl. rewrite Ascii.eqb_refl. reflexivity.
  - rewrite append_cons. simpl in *.
    apply andb_true_iff in Hall as [Hc Hall].
    apply negb_true_iff in Hc. rewrite Hc, (IH Hall). reflexivity.
Qed.

Lemma split_last_absent sep (s : string) :
  all_chars (fun c => negb (Ascii.eqb c sep)) s = true ->
  split_last sep s = None.
Proof.
  induction s as [|c s IH]; intros Hall; simpl in *; [reflexivity|].
  apply andb_true_iff in Hall as [Hc Hall].
  apply negb_true_iff in Hc. rewrite (IH Hall), Hc. reflexivity.
Qed.

Lemma split_last_found sep (before after : string) :
  all_chars (fun c => negb (Ascii.eqb c sep)) after = true ->
  split_last sep (before ++ String sep after) = Some (before, after).
Proof.
  intros Hall. induction before as [|c before IH].
  - rewrite append_nil. simpl.
    rewrite (split_last_absent _ _ Hall), Ascii.eqb_refl. reflexivity.
  - rewrite append_cons. simpl. rewrite IH. reflexivity.
Qed.

(** The check constraint accepts the texts of the pattern and no other. *)
Lemma valid_email_format_iff s :
  valid_email_format s = true <-> matches_email_pattern s.
Proof.
  unfold valid_email_format, matches_email_pattern. split.
  - intros Hv.
    destruct (split_first "@" s) as [[loc rest]|] eqn:H1; [|discriminate].
    destruct (split_last "." rest) as [[dom tld]|] eqn:H2; [|discriminate].
    apply split_first_append in H1. apply split_last_append in H2. subst.
    repeat (apply andb_true_iff in Hv as [Hv ?]).
    exists loc, dom, tld.
    repeat match goal with
           | H : (_ <=? _)%nat = true |- _ => apply Nat.leb_le in H
           end.
    repeat split; assumption.
  - intros (loc & dom & tld & -> & Hl1 & Hl2 & Hd1 & Hd2 & Ht1 & Ht2).
    rewrite split_first_found.
    2:{ eapply all_chars_impl; [|exact Hl2].
        intros c Hc. apply negb_true_iff. revert c Hc.
        apply class_without. reflexivity. }
    rewrite split_last_found.
    2:{ eapply all_chars_impl; [|exact Ht2].
        intros c Hc. apply negb_true_iff. revert c Hc.
        apply class_without. reflexivity. }
    apply Nat.leb_le in Hl1, Hd1, Ht1.
    rewrite Hl1, Hl2, Hd1, Hd2, Ht1, Ht2. reflexivity.
Qed.




Lemma trimStart_head s c r : trimStart s = String c r -> is_space c = false.
Proof.
  induction s as [|d s IH]; simpl; [discriminate|].
  destruct (is_space d) eqn:Hd; [assumption|].
  intros Hs. inversion Hs; subst. assumption.
Qed.

Lemma rev_onto_append s acc : rev_onto s acc = rev_onto s EmptyString ++ acc.
Proof.
  revert acc. induction s as [|c s IH]; intros acc; simpl; [reflexivity|].
  rewrite (IH (String c acc)), (IH (String c EmptyString)).
  rewrite append_assoc. reflexivity.
Qed.

Lemma reverse_cons c r : reverse (String c r) = reverse r ++ String c EmptyString.
Proof. unfold reverse. simpl. apply rev_onto_append. Qed.

Lemma drop_to_last p k (y : string) c :
  k <= String.length y ->
  all_chars p (drop k (y ++ String c EmptyString)) = true -> p c = true.
Proof.
  revert k. induction y as [|d y IH]; intros k Hk; simpl in Hk.
  - assert (k = 0) by lia. subst. rewrite append_nil. simpl.
    rewrite andb_true_r. auto.
  - rewrite append_cons. destruct k as [|k]; simpl.
    + rewrite all_chars_append. simpl. rewrite andb_true_r.
      intros H. apply andb_true_iff in H as [_ H].
      apply andb_true_iff in H as [_ H]. assumption.
    + apply IH. lia.
Qed.

(** What [trimEnd] gives does not end in spaces. *)
Lemma trimEnd_no_trailing_spaces s k :
  k < String.length (trimEnd s) ->
  all_chars (fun c => (code c =? 32)%nat) (drop k (trimEnd s)) = true -> False.
Proof.
  unfold trimEnd. destruct (trimStart (reverse s)) as [|c r] eqn:Ht.
  - simpl. lia.
  - rewrite reverse_cons, length_append. simpl. intros Hk Hall.
    apply drop_to_last in Hall; [|lia].
    apply trimStart_head in Ht. unfold is_space in Ht.
    rewrite Hall in Ht. rewrite orb_true_r in Ht. discriminate.
Qed.

(** VARCHAR(n) stores a trimmed text whole or not at all. *)
Lemma varchar_in_trimmed n raw stored :
  varchar_in n (trim raw) = inr stored -> stored = trim raw.
Proof.
  unfold varchar_in. destruct (text_in (trim raw)); [discriminate|].
  destruct (String.length (trim raw) <=? n)%nat eqn:Hl; [congruence|].
  destruct (all_chars _ (drop n (trim raw))) eqn:Hall; [|discriminate].
  exfalso. apply Nat.leb_gt in Hl. unfold trim in *.
  apply (trimEnd_no_trailing_spaces _ n Hl Hall).
Qed.

End StringFacts.

(* ===================================================================== *)
(** ** Normalized emails *)
(* ===================================================================== *)

Module NormalizeFacts.
Import JS Pg StringFacts Waitlist Sessions.

Lemma lower_char_idempotent c : lower_char (lower_char c) = lower_char c.
Proof. destruct c as [[] [] [] [] [] [] [] []]; reflexivity. Qed.

Lemma lower_char_not_upper c : is_upper (lower_char c) = false.
Proof. destruct c as [[] [] [] [] [] [] [] []]; reflexivity. Qed.

Lemma toLowerCase_lower_case s : lower_case (toLowerCase s).
Proof.
  unfold lower_case. induction s as [|c s IH]; simpl; [reflexivity|].
  rewrite lower_char_not_upper, IH. reflexivity.
Qed.

Lemma toLowerCase_idempotent s : toLowerCase (toLowerCase s) = toLowerCase s.
Proof.
  induction s as [|c s IH]; simpl; [reflexivity|].
  rewrite lower_char_idempotent, IH. reflexivity.
Qed.

Lemma append_empty_r (s : string) : s ++ EmptyString = s.
Proof.
  induction s as [|c s IH]; [reflexivity|]. rewrite append_cons, IH. reflexivity.
Qed.

Lemma reverse_append (x y : string) : reverse (x ++ y) = reverse y ++ reverse x.
Proof.
  induction x as [|c x IH].
  - rewrite append_nil. change (reverse EmptyString) with EmptyString.
    rewrite append_empty_r. reflexivity.
  - rewrite append_cons, !reverse_cons, IH, append_assoc. reflexivity.
Qed.

Lemma reverse_involutive s : reverse (reverse s) = s.
Proof.
  induction s as [|c s IH]; [reflexivity|].
  rewrite reverse_cons, reverse_append, IH. reflexivity.
Qed.

Lemma all_chars_trimStart p s :
  all_chars p s = true -> all_chars p (trimStart s) = true.
Proof.
  induction s as [|c s IH]; simpl; [auto|].
  intros Hs. destruct (is_space c); [|assumption].
  apply andb_true_iff in Hs as [_ Hs]. auto.
Qed.

Lemma all_chars_reverse p s : all_chars p (reverse s) = all_chars p s.
Proof.
  induction s as [|c s IH]; [reflexivity|].
  rewrite reverse_cons, all_chars_append, IH. simpl.
  rewrite andb_true_r. apply andb_comm.
Qed.

(** [trim] leaves no character that was not there. *)
Lemma all_chars_trim p s : all_chars p s = true -> all_chars p (trim s) = true.
Proof.
  intros Hs. unfold trim, trimEnd.
  rewrite all_chars_reverse. apply all_chars_trimStart.
  rewrite all_chars_reverse. apply all_chars_trimStart. assumption.
Qed.

Lemma trimStart_fixed c r : is_space c = false -> trimStart (String c r) = String c r.
Proof. intros Hc. simpl. rewrite Hc. reflexivity. Qed.

Lemma trimStart_idempotent s : trimStart (trimStart s) = trimStart s.
Proof.
  destruct (trimStart s) as [|c r] eqn:Ht; [reflexivity|].
  apply trimStart_fixed. eapply trimStart_head. eassumption.
Qed.

Lemma trimEnd_idempotent s : trimEnd (trimEnd s) = trimEnd s.
Proof.
  unfold trimEnd. rewrite reverse_involutive, trimStart_idempotent. reflexivity.
Qed.

Lemma trimStart_keeps_last (x : string) c :
  is_space c = false ->
  exists y, trimStart (x ++ String c EmptyString) = y ++ String c EmptyString.
Proof.
  intros Hc. induction x as [|d x IH].
  - exists EmptyString. rewrite !append_nil. apply trimStart_fixed. assumption.
  - rewrite append_cons. simpl. destruct (is_space d).
    + exact IH.
    + exists (String d x). rewrite append_cons. reflexivity.
Qed.

(** [trimEnd] keeps a first character that is no white space. *)
Lemma trimEnd_keeps_head c r :
  is_space c = false -> exists r', trimEnd (String c r) = String c r'.
Proof.
  intros Hc. unfold trimEnd. rewrite reverse_cons.
  destruct (trimStart_keeps_last (reverse r) c Hc) as [y ->].
  rewrite reverse_append. exists (reverse y). reflexivity.
Qed.

Lemma trim_idempotent s : trim (trim s) = trim s.
Proof.
  unfold trim.
  assert (Hs : trimStart (trimEnd (trimStart s)) = trimEnd (trimStart s)).
  { destruct (trimStart s) as [|c r] eqn:Ht; [reflexivity|].
    destruct (trimEnd_keeps_head c r (trimStart_head _ _ _ Ht)) as [r' ->].
    apply trimStart_fixed. eapply trimStart_head. eassumption. }
  rewrite Hs. apply trimEnd_idempotent.
Qed.

Lemma toLowerCase_fixed s :
  all_chars (fun c => Ascii.eqb (lower_char c) c) s = true -> toLowerCase s = s.
Proof.
  induction s as [|c s IH]; simpl; [reflexivity|].
  intros Hs. apply andb_true_iff in Hs as [Hc Hs].
  apply Ascii.eqb_eq in Hc. rewrite Hc, (IH Hs). reflexivity.
Qed.

Lemma toLowerCase_all_fixed s :
  all_chars (fun c => Ascii.eqb (lower_char c) c) (toLowerCase s) = true.
Proof.
  induction s as [|c s IH]; simpl; [reflexivity|].
  rewrite lower_char_idempotent, Ascii.eqb_refl, IH. reflexivity.
Qed.

Lemma normalize_twice raw : normalize (normalize raw) = normalize raw.
Proof.
  unfold normalize.
  rewrite (toLowerCase_fixed (trim (toLowerCase raw))).
  - apply trim_idempotent.
  - apply all_chars_trim. apply toLowerCase_all_fixed.
Qed.

Lemma normalize_lower_case raw : lower_case (normalize raw).
Proof. unfold normalize, lower_case. apply all_chars_trim. apply toLowerCase_lower_case. Qed.

Lemma trimStart_starts_without_space s : starts_without_space (trimStart s).
Proof.
  unfold starts_without_space.
  destruct (trimStart s) as [|c r] eqn:Ht; [exact I|].
  eapply trimStart_head. eassumption.
Qed.

(** What [trim] gives has no white space at either end. *)
Lemma trim_no_outer_space s : no_outer_space (trim s).
Proof.
  unfold no_outer_space, trim. split.
  - destruct (trimStart s) as [|c r] eqn:Ht; [exact I|].
    destruct (trimEnd_keeps_head c r (trimStart_head _ _ _ Ht)) as [r' ->].
    simpl. eapply trimStart_head. eassumption.
  - unfold trimEnd. rewrite reverse_involutive.
    apply trimStart_starts_without_space.
Qed.

Lemma normalize_no_outer_space raw : no_outer_space (normalize raw).
Proof. unfold normalize. apply trim_no_outer_space. Qed.

End NormalizeFacts.

(* ===================================================================== *)
(** ** The handler on the tables *)
(* ===================================================================== *)

Module WaitlistFacts.
Import JS Handler HandlerFacts Pg PgFacts StringFacts Waitlist.
#[local] Existing Instance Pg.client.

(** The identifier generated is never the key of a row there is. *)
Lemma fresh_always db : fresh db.
Proof. apply next_id_fresh. Qed.

Lemma row_of_columns p row :
  row_of p = inr row ->
  (exists t, json_as_text (Supabase.application_id p) = Some t /\
             uuid_in t = Some (application_id row)) /\
  varchar_in 320 (Supabase.email p) = inr (email row) /\
  (exists t, json_as_text (Supabase.source_url p) = Some t /\
             text_in t = inr (source_url row)) /\
  country_in (Supabase.country p) = inr (country row) /\
  created_at row = Supabase.created_at p.
Proof.
  unfold row_of, and_then, not_null. intros Hrow.
  destruct (json_as_text (Supabase.application_id p)) as [t|]; [|discriminate].
  destruct (uuid_in t) as [u|] eqn:Hu; [|discriminate].
  destruct (varchar_in 320 (Supabase.email p)) as [|em] eqn:Hem; [discriminate|].
  destruct (json_as_text (Supabase.source_url p)) as [t'|]; [|discriminate].
  destruct (text_in t') as [|url] eqn:Hurl; [discriminate|].
  destruct (country_in (Supabase.country p)) as [|ctry] eqn:Hc; [discriminate|].
  inversion Hrow; subst; simpl. repeat split; eauto.
Qed.

Lemma row_of_build p t app em t' url ctry :
  json_as_text (Supabase.application_id p) = Some t ->
  uuid_in t = Some app ->
  varchar_in 320 (Supabase.email p) = inr em ->
  json_as_text (Supabase.source_url p) = Some t' ->
  text_in t' = inr url ->
  country_in (Supabase.country p) = inr ctry ->
  row_of p = inr {| application_id := app; email := em; source_url := url;
                    country := ctry; created_at := Supabase.created_at p |}.
Proof.
  intros H1 H2 H3 H4 H5 H6. unfold row_of, and_then, not_null.
  rewrite H1, H2, H3, H4, H5, H6. reflexivity.
Qed.

(** The time of creation is copied and nothing is made to depend on it. *)
Lemma row_of_created_at now now' a raw s c row :
  row_of (new_entry now a raw s c) = inr row ->
  exists row',
    row_of (new_entry now' a raw s c) = inr row' /\
    unique_key row' = unique_key row /\ email row' = email row.
Proof.
  intros Hrow. apply row_of_columns in Hrow.
  destruct Hrow as ([t [H1 H2]] & H3 & [t' [H4 H5]] & H6 & _).
  eexists. split.
  - eapply (row_of_build (new_entry now' a raw s c)); eassumption.
  - split; reflexivity.
Qed.

Lemma well_formed_validate now req db a raw s c :
  well_formed req db a raw s c ->
  validate now req db = (Return (inr (new_entry now a raw s c)), db).
Proof.
  intros (Hm & [v [Hj Hd]] & Hr & (text & app & Ht & Hu & Happ)).
  rewrite (validate_fields now _ db _ _ _ _ _ Hj Hd).
  rewrite (required_all _ _ _ Hr).
  change (Supabase.select_application a db) with (Pg.select_application a db).
  rewrite (select_application_some _ _ _ _ Ht Hu Happ). reflexivity.
Qed.

(** An accepted request is answered 201 with the key of the row stored. *)
Lemma serve_accepted now req db row :
  accepted now req db row ->
  serve now req db =
    {| response := joined (next_uuid db); database := stored row db;
       console := [] |}.
Proof.
  intros (a & raw & s & c & Hwf & Hrow & Hmail & Hfmt & Hkey & Happ).
  assert (Hm := proj1 Hwf).
  rewrite (serve_post _ _ _ Hm).
  rewrite (try_block_insert _ _ _ _ _ (well_formed_validate now _ _ _ _ _ _ Hwf)).
  unfold insert_step, bind, await.
  change (Supabase.insert_entry ?p ?d) with (Pg.insert_entry p d).
  rewrite (insert_entry_stores _ _ _ Hrow Hfmt Hkey Happ). reflexivity.
Qed.

Lemma toLowerCase_trim_string e mail :
  toLowerCase_trim e = Return mail -> exists raw, e = JString raw /\ mail = normalize raw.
Proof.
  destruct e; simpl; intros He; try discriminate.
  inversion He; subst. eauto.
Qed.

Lemma inserted_failed_refused db db2 c msg out :
  applications db2 = applications db ->
  waitlist_entries db2 = waitlist_entries db ->
  inserted (Supabase.failed c msg) db2 out -> refused db out.
Proof.
  intros Ha Hw Hi. unfold refused.
  inversion Hi; subst; simpl in *; try discriminate;
    repeat split; try assumption; auto 10.
Qed.

(** A request is either accepted, or refused with the tables left alone. *)
Lemma serve_cases now req db :
  (exists row, accepted now req db row) \/ refused db (serve now req db).
Proof.
  destruct (decide (method req = "POST")) as [Hm|Hm].
  2:{ right. destruct (serve_not_post now req db Hm) as (Hd & _ & Hr).
      unfold refused. rewrite Hd. repeat split.
      destruct Hr as [-> | ->]; simpl; auto. }
  assert (Ht := serve_trace now req db Hm).
  remember (serve now req db) as out eqn:Hout. clear Hout.
  destruct Ht as [e0 Hj|v e0 Hj Hd|v a e s c Hj Hd Hr
                 |v a e s c err db1 Hj Hd Hr Hs
                 |v a e s c r db1 Hj Hd Hr Hs He
                 |v a e s c r app db1 err Hj Hd Hr Hs He Hdata Hl
                 |v a e s c r app db1 mail row r2 db2 out Hj Hd Hr Hs He Hdata Hl Hrow Hi Hins].
  - right. unfold refused. simpl. auto 10.
  - right. unfold refused. simpl. auto 10.
  - right. unfold refused. simpl. auto 10.
  - right. apply select_application_reads in Hs. subst.
    unfold refused. simpl. auto 10.
  - right. apply select_application_reads in Hs. subst.
    unfold refused. simpl. auto 10.
  - right. apply select_application_reads in Hs. subst.
    unfold refused. simpl. auto 10.
  - pose proof (select_application_reads _ _ _ _ Hs) as ->.
    destruct (select_application_found _ _ _ _ _ Hs He Hdata)
      as (text & Htext & Hu & Happ).
    destruct (toLowerCase_trim_string _ _ Hl) as [raw [-> ->]].
    change (Supabase.insert_entry row db) with (Pg.insert_entry row db) in Hi.
    destruct (insert_entry_inv _ _ _ _ Hi)
      as [(code & msg & -> & ->)
         |(stored_row & -> & -> & Hrow' & Hfmt & Hfresh & Hkey & Hfk)].
    + right. eapply inserted_failed_refused; [| |eassumption]; reflexivity.
    + left. exists stored_row. exists a, raw, s, c. subst row.
      assert (Hcols := row_of_columns _ _ Hrow').
      destruct Hcols as (_ & Hmail & _).
      simpl in Hmail. apply varchar_in_trimmed in Hmail.
      repeat split; eauto.
Qed.

Lemma well_formed_tables req db db' a raw s c :
  applications db' = applications db ->
  well_formed req db a raw s c -> well_formed req db' a raw s c.
Proof.
  intros Ha (Hm & Hv & Hr & (text & app & Ht & Hu & Happ)).
  repeat split; try assumption. exists text, app. rewrite Ha. auto.
Qed.

Lemma settled_tables req db db' :
  applications db' = applications db ->
  waitlist_entries db' = waitlist_entries db ->
  settled req db -> settled req db'.
Proof.
  intros Ha Hw (a & raw & s & c & Hwf & Hrows).
  exists a, raw, s, c. split.
  - eapply well_formed_tables; eassumption.
  - rewrite Hw. assumption.
Qed.

(** Once a request is accepted, its key is taken. *)
Lemma accepted_settled now req db row :
  accepted now req db row -> settled req (stored row db).
Proof.
  intros (a & raw & s & c & Hwf & Hrow & Hmail & Hfmt & Hkey & Hfk).
  exists a, raw, s, c. split.
  - eapply well_formed_tables; [|eassumption]. reflexivity.
  - intros now'.
    destruct (row_of_created_at now now' _ _ _ _ _ Hrow) as (row' & Hrow' & Hk & Hm).
    exists row'. split; [assumption|]. split; [congruence|].
    unfold key_taken, stored, with_entry. simpl.
    apply map_Exists_insert_2_1. symmetry. assumption.
Qed.

(** A request whose key is taken is answered 409, and its key stays taken. *)
Lemma settled_serve now req db :
  settled req db ->
  serve now req db =
    {| response := email_already_registered;
       database := snd (gen_random_uuid db); console := [] |}.
Proof.
  intros (a & raw & s & c & Hwf & Hrows).
  destruct (Hrows now) as (row & Hrow & Hfmt & Hkey).
  rewrite (serve_post _ _ _ (proj1 Hwf)).
  rewrite (try_block_insert _ _ _ _ _ (well_formed_validate now _ _ _ _ _ _ Hwf)).
  unfold insert_step, bind, await.
  change (Supabase.insert_entry ?p ?d) with (Pg.insert_entry p d).
  destruct (insert_entry_duplicate _ _ _ Hrow Hfmt Hkey) as [msg ->].
  reflexivity.
Qed.

Lemma replay_settled req times db :
  settled req db ->
  Forall (fun r => r = email_already_registered) (replay req times db).
Proof.
  revert db. induction times as [|now times IH]; intros db Hs; simpl.
  - constructor.
  - rewrite (settled_serve now _ _ Hs). simpl. constructor; [reflexivity|].
    apply IH. eapply settled_tables; [| |eassumption]; reflexivity.
Qed.

Lemma status_201_accepted now req db :
  status (response (serve now req db)) = 201 -> exists row, accepted now req db row.
Proof.
  intros H201. destruct (serve_cases now req db) as [Hacc|(_ & _ & Hst)];
    [assumption|].
  rewrite H201 in Hst. simpl in Hst.
  repeat (destruct Hst as [Hst|Hst]; [discriminate|]). contradiction.
Qed.

Lemma unique_pairs_stored row db :
  unique_pairs db ->
  ~ key_taken (unique_key row) (waitlist_entries db) ->
  unique_pairs (stored row db).
Proof.
  intros Huniq Hkey i j e1 e2. unfold stored, with_entry. simpl.
  rewrite !lookup_insert_Some.
  intros [[<- <-]|[Hi H1]] [[<- <-]|[Hj H2]] Heq.
  - reflexivity.
  - exfalso. apply Hkey. exists j, e2. split; [assumption|]. symmetry. assumption.
  - exfalso. apply Hkey. exists i, e1. split; assumption.
  - eapply Huniq; eassumption.
Qed.

Lemma normalized_emails_stored row db raw :
  normalized_emails db -> email row = normalize raw ->
  normalized_emails (stored row db).
Proof.
  intros Hnorm Hmail i e. unfold stored, with_entry. simpl.
  rewrite lookup_insert_Some. intros [[<- <-]|[_ He]].
  - eauto.
  - eapply Hnorm; eassumption.
Qed.

(** Serving a request keeps the pairs unique and the emails normalized. *)
Lemma serve_preserves now req db :
  unique_pairs db /\ normalized_emails db ->
  unique_pairs (database (serve now req db)) /\
  normalized_emails (database (serve now req db)).
Proof.
  intros [Huniq Hnorm].
  destruct (serve_cases now req db) as [[row Hacc]|(_ & Hw & _)].
  - rewrite (serve_accepted _ _ _ _ Hacc). simpl.
    destruct Hacc as (a & raw & s & c & Hwf & Hrow & Hmail & Hfmt & Hkey & Hfk).
    split.
    + apply unique_pairs_stored; assumption.
    + eapply normalized_emails_stored; eassumption.
  - unfold unique_pairs, normalized_emails. rewrite Hw. split; assumption.
Qed.

Lemma reachable_invariant db :
  reachable db -> unique_pairs db /\ normalized_emails db.
Proof.
  induction 1 as [db Hempty|id app db Hreach IH|now req db Hreach IH].
  - unfold unique_pairs, normalized_emails. rewrite Hempty. split.
    + intros i j e1 e2 Hi. rewrite lookup_empty in Hi. discriminate.
    + intros i e Hi. rewrite lookup_empty in Hi. discriminate.
  - exact IH.
  - apply serve_preserves. exact IH.
Qed.

Lemma truthy_string s : s <> EmptyString -> truthy (JString s) = true.
Proof. destruct s; [congruence|reflexivity]. Qed.

Lemma get_object v k s : get v k = JString s -> v <> JNull /\ v <> JUndefined.
Proof. destruct v; simpl; intros Hg; split; congruence. Qed.

End WaitlistFacts.

(* ===================================================================== *)
(** ** The contract of the handler, on the tables of the migration *)
(* ===================================================================== *)

Module Storage.
Import JS Handler HandlerFacts Pg PgFacts StringFacts Waitlist WaitlistFacts.
Import Sessions NormalizeFacts.
#[local] Existing Instance Pg.client.


(** C2. After a request has been answered 201, the same request sent again
    is answered 409 "Email already registered" every time, and so never
    201 again, however many times it is sent. *)
Theorem repeat_is_409 now req db times :
  status (response (serve now req db)) = 201 ->
  Forall (fun r => r = email_already_registered /\ status r = 409 /\ status r <> 201)
         (replay req times (database (serve now req db))).
Proof.
  intros H201. destruct (status_201_accepted _ _ _ H201) as [row Hacc].
  rewrite (serve_accepted _ _ _ _ Hacc). simpl.
  eapply Forall_impl; [apply replay_settled, (accepted_settled _ _ _ _ Hacc)|].
  intros r ->. repeat split. discriminate.
Qed.

(** C3. In every reachable state of the database no two waitlist entries
    have the same (application identifier, email) pair, and the email
    stored is the normalized one: it has none of the letters A-Z and no
    white space at either end, so that two entries of one application
    never have emails that differ in case or outer white space only; and
    serving any request keeps the pairs unique. *)
Theorem unique_pairs_invariant :
  (forall db, reachable db ->
     unique_pairs db /\
     (forall i e, waitlist_entries db !! i = Some e ->
        lower_case (email e) /\ no_outer_space (email e)) /\
     (forall i j e1 e2,
        waitlist_entries db !! i = Some e1 ->
        waitlist_entries db !! j = Some e2 ->
        application_id e1 = application_id e2 ->
        trim (toLowerCase (email e1)) = trim (toLowerCase (email e2)) ->
        i = j)) /\
  (forall now req db,
     unique_pairs db -> unique_pairs (database (serve now req db))).
Proof.
  split.
  - intros db Hreach.
    destruct (reachable_invariant db Hreach) as [Huniq Hnorm].
    split; [exact Huniq|]. split.
    + intros i e He. destruct (Hnorm i e He) as [raw ->]. split.
      * apply normalize_lower_case.
      * apply normalize_no_outer_space.
    + intros i j e1 e2 H1 H2 Happ Hmail.
      apply (Huniq i j e1 e2 H1 H2). unfold unique_key.
      destruct (Hnorm i e1 H1) as [raw1 Hr1].
      destruct (Hnorm j e2 H2) as [raw2 Hr2].
      fold (normalize (email e1)) in Hmail. fold (normalize (email e2)) in Hmail.
      rewrite Hr1, Hr2, !normalize_twice in Hmail.
      rewrite Happ, Hr1, Hr2, Hmail. reflexivity.
  - intros now req db Huniq.
    destruct (serve_cases now req db) as [[row Hacc]|(_ & Hw & _)].
    + rewrite (serve_accepted _ _ _ _ Hacc). simpl.
      destruct Hacc as (a & raw & s & c & _ & _ & _ & _ & Hkey & _).
      apply unique_pairs_stored; assumption.
    + unfold unique_pairs. rewrite Hw. assumption.
Qed.

(** C6. For every POST request with all required fields present and a
    well-formed applicationId that is the key of no row of [applications],
    the handler answers 400 with the body [{success:false,
    message:"Invalid application ID"}]. *)
Theorem unknown_application_is_400 now req db v app_text app :
  method req = "POST" ->
  json req = Return v ->
  required_present (get v "applicationId") (get v "email") (get v "sourceUrl")
    = true ->
  get v "applicationId" = JString app_text ->
  uuid_in app_text = Some app ->
  applications db !! app = None ->
  serve now req db =
    {| response := invalid_application_id; database := db; console := [] |} /\
  status invalid_application_id = 400.
Proof.
  intros Hm Hj Hr Ha Hu Happ. split; [|reflexivity].
  destruct (get_object _ _ _ Ha) as [Hn Hund].
  assert (Hsel : exists c msg,
             Supabase.select_application (get v "applicationId") db
             = (Return (Supabase.failed c msg), db)).
  { rewrite Ha.
    apply (select_application_none (JString app_text) db app_text app);
      [reflexivity|assumption|assumption]. }
  destruct Hsel as (c & msg & Hsel).
  rewrite (serve_post _ _ _ Hm).
  rewrite (try_block_early _ _ _ _ _
             (validate_lookup_error now _ _ _ _ _ _ _ _ _ Hj
                (destructure_object v Hn Hund) Hr Hsel
                (or_introl (ex_intro _ _ eq_refl)))).
  reflexivity.
Qed.

(** C7. For every request: either the answer is 201 and the table of
    entries has exactly one row more, under a key that was free; or the
    answer is one of 200, 405, 400, 409 and 500 and the table of entries is
    what it was. The table of applications is never written. *)
Theorem one_row_or_none now req db :
  applications (database (serve now req db)) = applications db /\
  ((status (response (serve now req db)) = 201 /\
    exists id row,
      waitlist_entries db !! id = None /\
      waitlist_entries (database (serve now req db))
        = <[id := row]> (waitlist_entries db) /\
      size (waitlist_entries (database (serve now req db)))
        = S (size (waitlist_entries db)))
   \/
   (In (status (response (serve now req db))) [200; 405; 400; 409; 500] /\
    waitlist_entries (database (serve now req db)) = waitlist_entries db)).
Proof.
  destruct (serve_cases now req db) as [[row Hacc]|(Ha & Hw & Hst)].
  - rewrite (serve_accepted _ _ _ _ Hacc). simpl. split; [reflexivity|].
    left. split; [reflexivity|].
    assert (Hfresh := fresh_always db).
    exists (next_uuid db), row. repeat split; [assumption|].
    apply map_size_insert_None. assumption.
  - split; [assumption|]. right. split; [|assumption].
    simpl in *. intuition.
Qed.

End Storage.

(* ===================================================================== *)
(** ** The contract on sample requests *)
(* ===================================================================== *)

Module Checks.
Import JS Handler Pg Waitlist Sessions Sample MoreSamples.
#[local] Existing Instance Pg.client.
#[local] Existing Instance Outage.client.



Lemma repeat_is_409_witness :
  Forall (fun r => r = email_already_registered /\ status r = 409 /\ status r <> 201)
         (replay join_us [later; later; later] db1).
Proof.
  apply (Storage.repeat_is_409 noon join_us db0 [later; later; later]).
  vm_compute. reflexivity.
Defined.

(** Two rows of one application, and the invariant on them. *)
Lemma unique_pairs_invariant_witness :
  (waitlist_entries db2 !! id1 = Some row1 /\
   waitlist_entries db2 !! id2 = Some row2 /\
   size (waitlist_entries db2) = 2) /\
  (unique_pairs db2 /\
   (forall i e, waitlist_entries db2 !! i = Some e ->
      lower_case (email e) /\ no_outer_space (email e)) /\
   (forall i j e1 e2,
      waitlist_entries db2 !! i = Some e1 ->
      waitlist_entries db2 !! j = Some e2 ->
      application_id e1 = application_id e2 ->
      trim (toLowerCase (email e1)) = trim (toLowerCase (email e2)) ->
      i = j)) /\
  unique_pairs (database (serve later join_second db1)).
Proof.
  split; [repeat split; vm_compute; reflexivity|]. split.
  - apply (proj1 Storage.unique_pairs_invariant db2).
    apply reachable_serve. apply reachable_serve.
    apply reachable_empty. reflexivity.
  - apply (proj2 Storage.unique_pairs_invariant later join_second db1).
    apply (proj1 Storage.unique_pairs_invariant db1).
    apply reachable_serve. apply reachable_empty. reflexivity.
Defined.

Lemma unique_violation_is_409_witness :
  response (serve later join_us db1) = email_already_registered /\
  status (response (serve later join_us db1)) = 409.
Proof.
  eapply (@Contract.unique_violation_is_409 Database Pg.client later join_us db1).
  - split; [reflexivity | vm_compute; reflexivity].
  - vm_compute. reflexivity.
  - vm_compute. reflexivity.
  - reflexivity.
Defined.

(** C5 as stated fails for the body [null]: it has none of the three
    members, and the answer is 500. *)
Lemma null_body_is_500 :
  method null_body = "POST" /\
  json null_body = Return JNull /\
  required_present (get JNull "applicationId") (get JNull "email")
    (get JNull "sourceUrl") = false /\
  response (serve noon null_body db0) = internal_server_error /\
  status (response (serve noon null_body db0)) = 500 /\
  response (serve noon null_body db0) <> missing_required_fields /\
  console (serve noon null_body db0)
    = [TypeError "Cannot destructure property 'applicationId'"].
Proof.
  repeat split; try (vm_compute; reflexivity).
  vm_compute. discriminate.
Qed.

Lemma missing_field_is_400_witness :
  serve noon no_email db0 =
    {| response := missing_required_fields; database := db0; console := [] |} /\
  status missing_required_fields = 400.
Proof.
  apply (@Contract.missing_field_is_400 Database Pg.client noon no_email db0
           (signup app1 EmptyString (JString "US"))).
  - reflexivity.
  - reflexivity.
  - discriminate.
  - discriminate.
  - vm_compute. reflexivity.
Defined.

Lemma unknown_application_is_400_witness :
  serve noon join_elsewhere db0 =
    {| response := invalid_application_id; database := db0; console := [] |} /\
  status invalid_application_id = 400.
Proof.
  apply (Storage.unknown_application_is_400 noon join_elsewhere db0
           (signup "00000000-0000-4000-8000-000000000000" "a@example.com" (JString "US"))
           "00000000-0000-4000-8000-000000000000"
           "00000000-0000-4000-8000-000000000000").
  - reflexivity.
  - reflexivity.
  - vm_compute. reflexivity.
  - reflexivity.
  - vm_compute. reflexivity.
  - vm_compute. reflexivity.
Defined.

Lemma exception_is_500_witness :
  serve noon not_json db0 =
    {| response := internal_server_error; database := db0;
       console := [SyntaxError "Unexpected token"] |} /\
  status internal_server_error = 500 /\
  body internal_server_error = Json false None "Internal server error".
Proof.
  apply (@Contract.exception_is_500 Database Pg.client noon not_json db0).
  split; [reflexivity | vm_compute; reflexivity].
Defined.

Lemma invalid_json_is_500_witness :
  response (serve noon not_json db0) = internal_server_error /\
  status (response (serve noon not_json db0)) = 500 /\
  response (serve noon not_json db0) <> missing_required_fields.
Proof.
  apply (@Contract.invalid_json_is_500 Database Pg.client noon not_json db0
           (SyntaxError "Unexpected token")).
  - reflexivity.
  - reflexivity.
Defined.

Lemma lookup_error_is_400_witness :
  response (serve noon join_us Outage.unreachable) = invalid_application_id /\
  status (response (serve noon join_us Outage.unreachable)) = 400.
Proof.
  apply (@Contract.lookup_error_is_400 Outage.Unreachable Outage.client
           noon join_us Outage.unreachable
           (signup app1 "  User@Example.com " (JString "US"))
           (Supabase.failed EmptyString "TypeError: fetch failed")
           Outage.unreachable
           {| Supabase.code := EmptyString;
              Supabase.message := "TypeError: fetch failed" |}).
  - reflexivity.
  - reflexivity.
  - discriminate.
  - discriminate.
  - vm_compute. reflexivity.
  - reflexivity.
  - reflexivity.
Defined.

(** The other rows of the table of responses. *)
Example preflight_is_200 :
  serve noon preflight db0 =
    {| response := ok_response; database := db0; console := [] |}.
Proof. reflexivity. Qed.

Example get_is_405 :
  serve noon get_request db0 =
    {| response := method_not_allowed; database := db0; console := [] |}.
Proof. reflexivity. Qed.

(** An email the check constraint refuses is answered 500. *)
Example bad_email_is_500 :
  response (serve noon bad_email db0) = internal_server_error /\
  console (serve noon bad_email db0) = [Thrown "23514" "valid_email_format"] /\
  waitlist_entries (database (serve noon bad_email db0)) = ∅.
Proof. repeat split; vm_compute; reflexivity. Qed.

Example normalize_example : normalize "  User@Example.com " = "user@example.com".
Proof. reflexivity. Qed.

Example uuid_in_forms :
  uuid_in "48BC5A4B-F8E4-4C4E-8832-1A766715641E" = Some app1 /\
  uuid_in "{48bc5a4bf8e44c4e88321a766715641e}" = Some app1 /\
  uuid_in "invalid-app-id" = None.
Proof. repeat split; vm_compute; reflexivity. Qed.

End Checks.

(* ===================================================================== *)
(** ** Every answer of the handler, over any client *)
(* ===================================================================== *)

Module Answers.
Import JS Supabase Handler HandlerFacts.

Section AnyClient.
Context {DB : Type} `{Client DB}.

(** The answers at the end of a trace. *)
Lemma trace_forms now req (db : DB) out :
  trace now req db out ->
  (console out = [] /\
   (response out = missing_required_fields \/
    response out = invalid_application_id \/
    response out = email_already_registered \/
    exists id, response out = joined id)) \/
  (response out = internal_server_error /\ exists e, console out = [e]).
Proof.
  intros Ht.
  destruct Ht as [e0 Hj|v e0 Hj Hd|v a e s c Hj Hd Hr
                 |v a e s c err0 db1 Hj Hd Hr Hs
                 |v a e s c r db1 Hj Hd Hr Hs He
                 |v a e s c r app db1 err Hj Hd Hr Hs He Hdata Hl
                 |v a e s c r app db1 mail row r2 db2 out Hj Hd Hr Hs He Hdata Hl Hrow Hi Hins];
    simpl; eauto 8.
  destruct Hins; simpl; eauto 8.
Qed.

Lemma serve_forms now req (db : DB) :
  (method req = "OPTIONS" /\
   serve now req db = {| response := ok_response; database := db; console := [] |}) \/
  (method req <> "OPTIONS" /\ method req <> "POST" /\
   serve now req db =
     {| response := method_not_allowed; database := db; console := [] |}) \/
  (method req = "POST" /\ trace now req db (serve now req db)).
Proof.
  destruct (decide (method req = "POST")) as [Hp|Hp].
  - right. right. split; [assumption|]. apply serve_trace. assumption.
  - unfold serve. destruct (String.eqb (method req) "OPTIONS") eqn:Ho.
    + apply String.eqb_eq in Ho. left. split; [assumption|reflexivity].
    + apply String.eqb_neq in Ho. right. left.
      apply String.eqb_neq in Hp. rewrite Hp. simpl. repeat split; try assumption.
      apply String.eqb_neq. assumption.
Qed.

End AnyClient.
End Answers.

(* ===================================================================== *)
(** ** More of the contract, over any client *)
(* ===================================================================== *)

Module Replies.
Import JS Supabase Handler HandlerFacts Answers.

Lemma destructure_inv v a e s c :
  destructure v = Return (a, e, s, c) ->
  v <> JNull /\ v <> JUndefined /\
  a = get v "applicationId" /\ e = get v "email" /\
  s = get v "sourceUrl" /\ c = get v "country".
Proof.
  destruct v; simpl; intros Hd; try discriminate;
    inversion Hd; subst; repeat split; discriminate.
Qed.

(** X1. The handler answers the pre-flight "ok" exactly when the method
    is OPTIONS, and 405 "Method not allowed" exactly when the method is
    neither OPTIONS nor POST; in both cases it leaves the server alone and
    logs nothing, whatever the body is. *)
Theorem method_answers {DB : Type} `{Client DB} now req (db : DB) :
  (response (serve now req db) = ok_response <-> method req = "OPTIONS") /\
  (response (serve now req db) = method_not_allowed <->
     method req <> "OPTIONS" /\ method req <> "POST") /\
  (method req = "POST" \/
   (database (serve now req db) = db /\ console (serve now req db) = [])).
Proof.
  destruct (serve_forms now req db) as [[Ho Hs]|[(Ho & Hp & Hs)|[Hp Ht]]].
  - rewrite Hs. simpl. split; [|split].
    + split; [intros _; exact Ho | reflexivity].
    + split; [discriminate | intros [Hno _]; contradiction].
    + right. auto.
  - rewrite Hs. simpl. split; [|split].
    + split; [discriminate | intros Heq; contradiction].
    + split; [intros _; auto | reflexivity].
    + right. auto.
  - assert (Hne : response (serve now req db) <> ok_response /\
                  response (serve now req db) <> method_not_allowed).
    { destruct (trace_forms _ _ _ _ Ht) as [[_ [Hf|[Hf|[Hf|[id Hf]]]]]|[Hf _]];
        rewrite Hf; split; discriminate. }
    destruct Hne as [Hne1 Hne2]. split; [|split].
    + split; [intros Heq; contradiction | intros Ho; rewrite Ho in Hp; discriminate].
    + split; [intros Heq; contradiction | intros [_ Hnp]; contradiction].
    + left. assumption.
Qed.

(** X2. Every response carries the three CORS headers, each with the
    value of [corsHeaders], and a content type: that of a text for the
    pre-flight response, whose body is a text given without one, and
    application/json for every other response. *)
Theorem cors_headers_always {DB : Type} `{Client DB} now req (db : DB) :
  header "Access-Control-Allow-Origin" (response (serve now req db))
    = Some "*" /\
  header "Access-Control-Allow-Headers" (response (serve now req db))
    = Some "authorization, x-client-info, apikey, content-type" /\
  header "Access-Control-Allow-Methods" (response (serve now req db))
    = Some "POST, OPTIONS" /\
  header "Content-Type" (response (serve now req db))
    = Some (if String.eqb (method req) "OPTIONS"
            then "text/plain;charset=UTF-8" else "application/json").
Proof.
  destruct (serve_forms now req db) as [[Ho Hs]|[(Ho & Hp & Hs)|[Hp Ht]]].
  - rewrite Hs, Ho. repeat split.
  - rewrite Hs. apply String.eqb_neq in Ho. rewrite Ho. repeat split.
  - rewrite Hp.
    destruct (trace_forms _ _ _ _ Ht) as [[_ [Hf|[Hf|[Hf|[id Hf]]]]]|[Hf _]];
      rewrite Hf; repeat split.
Qed.

(** X3. Every response is one of the six fixed ones or the success
    response for some identifier: no other status, body or message is ever
    sent, and an identifier is sent with status 201 only. *)
Theorem response_is_one_of_seven {DB : Type} `{Client DB} now req (db : DB) :
  (exists id, response (serve now req db) = joined id) \/
  In (response (serve now req db))
     [ ok_response; method_not_allowed; missing_required_fields;
       invalid_application_id; email_already_registered;
       internal_server_error ].
Proof.
  destruct (serve_forms now req db) as [[Ho Hs]|[(Ho & Hp & Hs)|[Hp Ht]]].
  - rewrite Hs. simpl. auto.
  - rewrite Hs. simpl. auto.
  - destruct (trace_forms _ _ _ _ Ht) as [[_ [Hf|[Hf|[Hf|[id Hf]]]]]|[Hf _]];
      rewrite Hf; simpl; eauto 10.
Qed.

(** X4. The handler logs exactly when it answers 500, and then exactly
    one error: with any other status the console is left empty. *)
Theorem logs_iff_500 {DB : Type} `{Client DB} now req (db : DB) :
  (console (serve now req db) = [] /\
   status (response (serve now req db)) <> 500) \/
  (response (serve now req db) = internal_server_error /\
   exists e, console (serve now req db) = [e]).
Proof.
  destruct (serve_forms now req db) as [[Ho Hs]|[(Ho & Hp & Hs)|[Hp Ht]]].
  - rewrite Hs. simpl. left. split; [reflexivity|discriminate].
  - rewrite Hs. simpl. left. split; [reflexivity|discriminate].
  - destruct (trace_forms _ _ _ _ Ht) as [[Hc [Hf|[Hf|[Hf|[id Hf]]]]]|[Hf He]].
    + left. rewrite Hf. split; [assumption|discriminate].
    + left. rewrite Hf. split; [assumption|discriminate].
    + left. rewrite Hf. split; [assumption|discriminate].
    + left. rewrite Hf. split; [assumption|discriminate].
    + right. split; assumption.
Qed.

(** X5. The handler answers 400 "Missing required fields" exactly when
    the request is a POST whose body parses to a value other than null with
    a falsy applicationId, email or sourceUrl. *)
Theorem missing_fields_iff {DB : Type} `{Client DB} now req (db : DB) :
  response (serve now req db) = missing_required_fields <->
  method req = "POST" /\
  exists v, json req = Return v /\ v <> JNull /\ v <> JUndefined /\
    required_present (get v "applicationId") (get v "email") (get v "sourceUrl")
      = false.
Proof.
  split.
  - intros Heq.
    destruct (serve_forms now req db) as [[Ho Hs]|[(Ho & Hp & Hs)|[Hp Ht]]].
    + rewrite Hs in Heq. discriminate.
    + rewrite Hs in Heq. discriminate.
    + split; [assumption|].
      remember (serve now req db) as out eqn:Hout. clear Hout.
      destruct Ht as [e0 Hj|v e0 Hj Hd|v a e s c Hj Hd Hr
                 |v a e s c err0 db1 Hj Hd Hr Hs
                 |v a e s c r db1 Hj Hd Hr Hs He
                 |v a e s c r app db1 err Hj Hd Hr Hs He Hdata Hl
                 |v a e s c r app db1 mail row r2 db2 out Hj Hd Hr Hs He Hdata Hl Hrow Hi Hins];
        simpl in Heq; try discriminate.
      * exists v. destruct (destructure_inv _ _ _ _ _ Hd)
          as (Hn & Hu & -> & -> & -> & _).
        repeat split; assumption.
      * destruct Hins; simpl in Heq; discriminate.
  - intros (Hm & v & Hj & Hn & Hu & Hr).
    rewrite (serve_post _ _ _ Hm).
    rewrite (try_block_early _ _ _ _ _
               (validate_missing _ _ _ _ _ _ _ _ Hj (destructure_object v Hn Hu) Hr)).
    reflexivity.
Qed.

(** X6. The handler answers 400 "Invalid application ID" exactly when the
    request is a POST with the three required members truthy and the
    lookup of the application gives an error or no row. *)
Theorem invalid_application_iff {DB : Type} `{Client DB} now req (db : DB) :
  response (serve now req db) = invalid_application_id <->
  method req = "POST" /\
  exists v, json req = Return v /\ v <> JNull /\ v <> JUndefined /\
    required_present (get v "applicationId") (get v "email") (get v "sourceUrl")
      = true /\
    exists r,
      fst (select_application (get v "applicationId") db) = Return r /\
      (is_Some (error r) \/ data r = None).
Proof.
  split.
  - intros Heq.
    destruct (serve_forms now req db) as [[Ho Hs]|[(Ho & Hp & Hs)|[Hp Ht]]].
    + rewrite Hs in Heq. discriminate.
    + rewrite Hs in Heq. discriminate.
    + split; [assumption|].
      remember (serve now req db) as out eqn:Hout. clear Hout.
      destruct Ht as [e0 Hj|v e0 Hj Hd|v a e s c Hj Hd Hr
                 |v a e s c err0 db1 Hj Hd Hr Hs
                 |v a e s c r db1 Hj Hd Hr Hs He
                 |v a e s c r app db1 err Hj Hd Hr Hs He Hdata Hl
                 |v a e s c r app db1 mail row r2 db2 out Hj Hd Hr Hs He Hdata Hl Hrow Hi Hins];
        simpl in Heq; try discriminate.
      * exists v. destruct (destructure_inv _ _ _ _ _ Hd)
          as (Hn & Hu & -> & -> & -> & _).
        repeat split; try assumption.
        exists r. rewrite Hs. split; [reflexivity|assumption].
      * destruct Hins; simpl in Heq; discriminate.
  - intros (Hm & v & Hj & Hn & Hu & Hr & r & Hsel & Hor).
    destruct (select_application (get v "applicationId") db) as [r' db1] eqn:Hs.
    simpl in Hsel. subst r'.
    rewrite (serve_post _ _ _ Hm).
    rewrite (try_block_early _ _ _ _ _
               (validate_lookup_error _ _ _ _ _ _ _ _ _ _ Hj
                  (destructure_object v Hn Hu) Hr Hs Hor)).
    reflexivity.
Qed.

(** X7. The handler answers 409 "Email already registered" only when the
    request reached the insert and the insert failed with code 23505: no
    other path gives that response. *)
Theorem duplicate_only_from_23505 {DB : Type} `{Client DB} now req (db : DB) :
  response (serve now req db) = email_already_registered ->
  exists row db1 e,
    reaches_insert now req db row db1 /\
    error (fst (insert_entry row db1)) = Some e /\
    code e = "23505".
Proof.
  intros Heq.
  destruct (serve_forms now req db) as [[Ho Hs]|[(Ho & Hp & Hs)|[Hp Ht]]].
  - rewrite Hs in Heq. discriminate.
  - rewrite Hs in Heq. discriminate.
  - remember (serve now req db) as out eqn:Hout. clear Hout.
    destruct Ht as [e0 Hj|v e0 Hj Hd|v a e s c Hj Hd Hr
                 |v a e s c err0 db1 Hj Hd Hr Hs
                 |v a e s c r db1 Hj Hd Hr Hs He
                 |v a e s c r app db1 err Hj Hd Hr Hs He Hdata Hl
                 |v a e s c r app db1 mail row r2 db2 out Hj Hd Hr Hs He Hdata Hl Hrow Hi Hins];
      simpl in Heq; try discriminate.
    destruct Hins as [r2 db2 err Herr Hcode| | |]; simpl in Heq; try discriminate.
    exists row, db1, err. split; [split; [assumption|]|].
    + rewrite (validate_fields now _ db _ _ _ _ _ Hj Hd).
      rewrite (required_all _ _ _ Hr), Hs, He, Hdata. simpl. rewrite Hl, Hrow.
      reflexivity.
    + rewrite Hi. simpl. split; assumption.
Qed.

(** X8. When the three required members are truthy and the application is
    found, but the email is not a string, the handler answers 500 with a
    TypeError logged, and the insert is not attempted: the server is as
    the lookup left it. *)
Theorem non_string_email_is_500 {DB : Type} `{Client DB}
    now req (db : DB) v r db1 app :
  method req = "POST" ->
  json req = Return v ->
  v <> JNull -> v <> JUndefined ->
  required_present (get v "applicationId") (get v "email") (get v "sourceUrl")
    = true ->
  (forall s, get v "email" <> JString s) ->
  select_application (get v "applicationId") db = (Return r, db1) ->
  error r = None -> data r = Some app ->
  serve now req db =
    {| response := internal_server_error; database := db1;
       console := [TypeError "email.toLowerCase is not a function"] |}.
Proof.
  intros Hm Hj Hn Hu Hr Hns Hs He Hd.
  rewrite (serve_post _ _ _ Hm).
  assert (Hv := validate_fields now _ db _ _ _ _ _ Hj (destructure_object v Hn Hu)).
  rewrite (required_all _ _ _ Hr), Hs, He, Hd in Hv. simpl in Hv.
  assert (Hl : toLowerCase_trim (get v "email")
               = Throw (TypeError "email.toLowerCase is not a function")).
  { destruct (get v "email") eqn:Hg; try reflexivity.
    exfalso. eapply Hns. reflexivity. }
  rewrite Hl in Hv. rewrite (try_block_throw _ _ _ _ _ Hv). reflexivity.
Qed.

(** X9. For every request reaching the insert step, if the insert fails
    with a code other than 23505 the handler answers 500 "Internal server
    error" and logs the error with its code and message; neither appears
    in the response. *)
Theorem other_insert_error_is_500 {DB : Type} `{Client DB}
    now req (db : DB) row db1 r db2 e :
  reaches_insert now req db row db1 ->
  insert_entry row db1 = (r, db2) ->
  error r = Some e ->
  code e <> "23505" ->
  serve now req db =
    {| response := internal_server_error; database := db2;
       console := [Thrown (code e) (message e)] |}.
Proof.
  intros [Hm Hv] Hi He Hc.
  rewrite (serve_post _ _ _ Hm), (try_block_insert _ _ _ _ _ Hv).
  unfold insert_step, bind, await. rewrite Hi, He.
  apply String.eqb_neq in Hc. rewrite Hc. reflexivity.
Qed.

End Replies.

(* ===================================================================== *)
(** ** More on the queries and on requests one after another *)
(* ===================================================================== *)

Module SessionFacts.
Import JS Handler HandlerFacts Pg PgFacts StringFacts Waitlist WaitlistFacts.
Import Sessions.
#[local] Existing Instance Pg.client.

Lemma text_in_inr s t : text_in s = inr t -> t = s.
Proof. unfold text_in. destruct (all_chars not_nul s); [congruence|discriminate]. Qed.

Lemma text_in_error s e : text_in s = inl e -> Supabase.code e <> "23505".
Proof.
  unfold text_in, raise. destruct (all_chars not_nul s); [discriminate|].
  intros Heq. inversion Heq; subst. simpl. discriminate.
Qed.

Lemma varchar_in_error n s e : varchar_in n s = inl e -> Supabase.code e <> "23505".
Proof.
  unfold varchar_in, raise. destruct (text_in s) as [e'|t] eqn:Ht.
  - intros Heq. inversion Heq; subst. eapply text_in_error; eassumption.
  - destruct (String.length s <=? n)%nat; [discriminate|].
    destruct (all_chars _ (drop n s)); [discriminate|].
    intros Heq. inversion Heq; subst. simpl. discriminate.
Qed.

Lemma country_in_error v e : country_in v = inl e -> Supabase.code e <> "23505".
Proof.
  unfold country_in, and_then. destruct (json_as_text v) as [c|]; [|discriminate].
  destruct (varchar_in 2 c) as [e'|c'] eqn:Hc; [|discriminate].
  intros Heq. inversion Heq; subst. eapply varchar_in_error; eassumption.
Qed.

(** No column of the new row is refused with the code of the unique
    violation. *)
Lemma row_of_error p e : row_of p = inl e -> Supabase.code e <> "23505".
Proof.
  unfold row_of, and_then, not_null, raise. intros Hrow.
  destruct (json_as_text (Supabase.application_id p)) as [t|].
  2:{ inversion Hrow; subst. simpl. discriminate. }
  destruct (uuid_in t) as [u|].
  2:{ inversion Hrow; subst. simpl. discriminate. }
  destruct (varchar_in 320 (Supabase.email p)) as [e1|em] eqn:Hem.
  { inversion Hrow; subst. eapply varchar_in_error; eassumption. }
  destruct (json_as_text (Supabase.source_url p)) as [t'|].
  2:{ inversion Hrow; subst. simpl. discriminate. }
  destruct (text_in t') as [e2|url] eqn:Hurl.
  { inversion Hrow; subst. eapply text_in_error; eassumption. }
  destruct (country_in (Supabase.country p)) as [e3|ctry] eqn:Hc.
  { inversion Hrow; subst. eapply country_in_error; eassumption. }
  discriminate.
Qed.



(** What [submits] and [well_formed] say of one request agree. *)
Lemma submits_well_formed req db app_text raw url c a raw' s c' :
  submits req app_text raw url c ->
  well_formed req db a raw' s c' ->
  a = JString app_text /\ raw' = raw /\ s = JString url /\ c' = c.
Proof.
  intros (_ & v & Hj & Ha & He & Hs & Hc) (_ & (v' & Hj' & Hd) & _).
  rewrite Hj in Hj'. inversion Hj'; subst v'.
  destruct (get_object _ _ _ Ha) as [Hn Hu].
  rewrite (destructure_object v Hn Hu), Ha, He, Hs, Hc in Hd.
  inversion Hd; subst. repeat split.
Qed.

Lemma submits_well_formed_intro req db app_text raw url c app :
  submits req app_text raw url c ->
  raw <> EmptyString -> url <> EmptyString ->
  uuid_in app_text = Some app ->
  is_Some (applications db !! app) ->
  well_formed req db (JString app_text) raw (JString url) c.
Proof.
  intros (Hm & v & Hj & Ha & He & Hs & Hc) Hraw Hurl Hu Happ.
  destruct (get_object _ _ _ Ha) as [Hn Hund].
  split; [assumption|]. split; [|split].
  - exists v. split; [assumption|].
    rewrite (destructure_object v Hn Hund), Ha, He, Hs, Hc. reflexivity.
  - unfold required_present. rewrite !truthy_string; try assumption; [reflexivity|].
    intros ->. discriminate.
  - exists app_text, app. repeat split; assumption.
Qed.

(** A request leaves every row there is as it is. *)
Lemma serve_keeps now req db id e :
  waitlist_entries db !! id = Some e ->
  waitlist_entries (database (serve now req db)) !! id = Some e.
Proof.
  intros Hid. destruct (serve_cases now req db) as [[row Hacc]|(_ & Hw & _)].
  - rewrite (serve_accepted _ _ _ _ Hacc). simpl.
    assert (Hfresh := fresh_always db).
    rewrite lookup_insert_ne; [assumption|].
    intros <-. unfold fresh, next_uuid in *. congruence.
  - rewrite Hw. assumption.
Qed.

Lemma serve_applications now req db :
  applications (database (serve now req db)) = applications db.
Proof.
  destruct (serve_cases now req db) as [[row Hacc]|(Ha & _ & _)].
  - rewrite (serve_accepted _ _ _ _ Hacc). reflexivity.
  - assumption.
Qed.

Lemma serve_all_cons now req calls db :
  serve_all ((now, req) :: calls) db =
    (response (serve now req db)
       :: fst (serve_all calls (database (serve now req db))),
     snd (serve_all calls (database (serve now req db)))).
Proof.
  simpl. destruct (serve_all calls (database (serve now req db))). reflexivity.
Qed.

Lemma serve_all_keeps calls db id e :
  waitlist_entries db !! id = Some e ->
  waitlist_entries (snd (serve_all calls db)) !! id = Some e.
Proof.
  revert db. induction calls as [|[now req] calls IH]; intros db Hid.
  - assumption.
  - rewrite serve_all_cons. simpl. apply IH. apply serve_keeps. assumption.
Qed.

Lemma serve_all_applications calls db :
  applications (snd (serve_all calls db)) = applications db.
Proof.
  revert db. induction calls as [|[now req] calls IH]; intros db.
  - reflexivity.
  - rewrite serve_all_cons. simpl. rewrite IH. apply serve_applications.
Qed.

(** A well-formed request whose insert fails with another code than 23505
    is answered 500, the error logged. *)
Lemma serve_insert_error now req db a raw s c code msg db2 :
  well_formed req db a raw s c ->
  insert_entry (new_entry now a raw s c) db = (Supabase.failed code msg, db2) ->
  code <> "23505" ->
  serve now req db =
    {| response := internal_server_error; database := db2;
       console := [Thrown code msg] |}.
Proof.
  intros Hwf Hi Hc.
  rewrite (serve_post _ _ _ (proj1 Hwf)).
  rewrite (try_block_insert _ _ _ _ _ (well_formed_validate now _ _ _ _ _ _ Hwf)).
  unfold insert_step, bind, await.
  change (Supabase.insert_entry ?p ?d) with (Pg.insert_entry p d).
  rewrite Hi. simpl. apply String.eqb_neq in Hc. rewrite Hc. reflexivity.
Qed.



Lemma length_take n s : String.length (take n s) <= n.
Proof.
  revert s. induction n as [|n IH]; intros s; simpl; [lia|].
  destruct s as [|c s]; simpl; [lia|]. specialize (IH s). lia.
Qed.

Lemma varchar_in_length n s t : varchar_in n s = inr t -> String.length t <= n.
Proof.
  unfold varchar_in. destruct (text_in s); [discriminate|].
  destruct (String.length s <=? n)%nat eqn:Hl.
  - intros Heq. inversion Heq; subst. apply Nat.leb_le. assumption.
  - destruct (all_chars _ (drop n s)); [|discriminate].
    intros Heq. inversion Heq; subst. apply length_take.
Qed.

Lemma country_in_length v c : country_in v = inr (Some c) -> String.length c <= 2.
Proof.
  unfold country_in, and_then. destruct (json_as_text v) as [t|]; [|discriminate].
  destruct (varchar_in 2 t) as [|c'] eqn:Hc; [discriminate|].
  intros Heq. inversion Heq; subst. eapply varchar_in_length; eassumption.
Qed.

Lemma created_cons r answers :
  created (r :: answers) =
    (if decide (status r = 201) then 1 else 0) + created answers.
Proof.
  unfold created. rewrite filter_cons. destruct (decide (status r = 201)); reflexivity.
Qed.

Lemma refused_not_created db out : refused db out -> status (response out) <> 201.
Proof.
  intros (_ & _ & Hst) Heq. rewrite Heq in Hst. simpl in Hst.
  repeat (destruct Hst as [Hst|Hst]; [discriminate|]). contradiction.
Qed.

(** The constraints of the migration hold for a row the handler stored. *)
Lemma accepted_schema now req db row :
  accepted now req db row ->
  String.length (email row) <= 320 /\
  valid_email_format (email row) = true /\
  is_Some (applications db !! application_id row) /\
  match country row with
  | Some c => String.length c <= 2
  | None => True
  end.
Proof.
  intros (a & raw & s & c & Hwf & Hrow & Hmail & Hfmt & Hkey & Hfk).
  destruct (row_of_columns _ _ Hrow) as (_ & Hem & _ & Hc & _).
  repeat split; try assumption.
  - eapply varchar_in_length; eassumption.
  - destruct (country row) as [cc|] eqn:Hcc; [|exact I].
    eapply country_in_length; eassumption.
Qed.

Lemma serve_schema now req db :
  satisfies_schema db -> satisfies_schema (database (serve now req db)).
Proof.
  intros Hsch. destruct (serve_cases now req db) as [[row Hacc]|(Ha & Hw & _)].
  - rewrite (serve_accepted _ _ _ _ Hacc). intros id e. unfold stored, with_entry.
    simpl. rewrite lookup_insert_Some. intros [[<- <-]|[_ He]].
    + eapply accepted_schema; eassumption.
    + apply (Hsch id e He).
  - intros id e. rewrite Hw, Ha. apply Hsch.
Qed.


End SessionFacts.

(* ===================================================================== *)
(** ** More of the contract, on the tables of the migration *)
(* ===================================================================== *)

Module Entries.
Import JS Handler HandlerFacts Pg PgFacts StringFacts Waitlist WaitlistFacts.
Import Sessions SessionFacts.
#[local] Existing Instance Pg.client.



(** X12. When a request with string members is answered 201, the row
    stored under the identifier returned has the application identifier
    in the text of the database, the email lower-cased and trimmed, the
    source URL as submitted, the time of the request, and the country the
    column reads; a falsy country is stored as NULL. *)
Theorem stored_row_columns now req db app_text raw url c :
  submits req app_text raw url c ->
  status (response (serve now req db)) = 201 ->
  exists app ctry,
    uuid_in app_text = Some app /\
    country_in (or_else c JNull) = inr ctry /\
    (truthy c = false -> ctry = None) /\
    response (serve now req db) = joined (next_uuid db) /\
    waitlist_entries (database (serve now req db)) !! next_uuid db =
      Some {| application_id := app; email := trim (toLowerCase raw);
              source_url := url; country := ctry; created_at := now |}.
Proof.
  intros Hsub H201. destruct (status_201_accepted _ _ _ H201) as [row Hacc].
  rewrite (serve_accepted _ _ _ _ Hacc). simpl.
  destruct Hacc as (a & raw' & s & c' & Hwf & Hrow & Hmail & _).
  destruct (submits_well_formed _ _ _ _ _ _ _ _ _ _ Hsub Hwf) as (-> & -> & -> & ->).
  destruct (row_of_columns _ _ Hrow) as ([t [H1 H2]] & H3 & [t' [H4 H5]] & H6 & H7).
  simpl in H1, H4, H6, H7. inversion H1; subst t. inversion H4; subst t'.
  apply text_in_inr in H5.
  exists (application_id row), (country row).
  split; [assumption|]. split; [assumption|]. split; [|split; [reflexivity|]].
  - intros Hf. unfold or_else in H6. rewrite Hf in H6.
    unfold country_in in H6. simpl in H6. congruence.
  - rewrite lookup_insert_eq. f_equal.
    destruct row as [ra re rs rc rt]. simpl in *. subst. reflexivity.
Qed.

(** X13. No request changes or removes a row: a row found under an
    identifier is found there, the same, after any requests served one
    after another, and the table of applications is what it was. *)
Theorem rows_are_kept calls db id e :
  waitlist_entries db !! id = Some e ->
  waitlist_entries (snd (serve_all calls db)) !! id = Some e /\
  applications (snd (serve_all calls db)) = applications db.
Proof.
  intros Hid. split.
  - apply serve_all_keeps. assumption.
  - apply serve_all_applications.
Qed.

(** X14. After any requests served one after another, the table of
    entries has as many rows more as there were 201 responses. *)
Theorem rows_count_created calls db :
  size (waitlist_entries (snd (serve_all calls db))) =
    size (waitlist_entries db) + created (fst (serve_all calls db)).
Proof.
  revert db. induction calls as [|[now req] calls IH]; intros db.
  - simpl. unfold created. simpl. lia.
  - rewrite serve_all_cons. simpl fst. simpl snd. rewrite IH, created_cons.
    destruct (serve_cases now req db) as [[row Hacc]|Href].
    + rewrite (serve_accepted _ _ _ _ Hacc). simpl.
      rewrite (map_size_insert_None _ _ _ (fresh_always db)).
      destruct (decide (201 = 201)); [lia|congruence].
    + pose proof (refused_not_created _ _ Href) as Hne.
      destruct Href as (_ & Hw & _). rewrite Hw.
      destruct (decide (status (response (serve now req db)) = 201)); [contradiction|lia].
Qed.



(** X17. An email the check constraint refuses is answered 500, not 400:
    for a POST with a non-empty text for the email and for the sourceUrl
    and the identifier of an application that exists, when the normalized
    email does not match the pattern nothing is stored and an error with a
    code other than 23505 is logged. *)
Theorem malformed_email_is_500 now req db app_text raw url c app :
  submits req app_text raw url c ->
  uuid_in app_text = Some app ->
  is_Some (applications db !! app) ->
  raw <> EmptyString ->
  url <> EmptyString ->
  valid_email_format (normalize raw) = false ->
  response (serve now req db) = internal_server_error /\
  waitlist_entries (database (serve now req db)) = waitlist_entries db /\
  exists code msg,
    console (serve now req db) = [Thrown code msg] /\ code <> "23505".
Proof.
  intros Hsub Hu Happ Hraw Hurl Hbad.
  assert (Hwf := submits_well_formed_intro _ db _ _ _ _ _ Hsub Hraw Hurl Hu Happ).
  assert (Hins : exists code msg,
             insert_entry (new_entry now (JString app_text) raw (JString url) c) db
             = (Supabase.failed code msg, snd (gen_random_uuid db)) /\
             code <> "23505").
  { unfold insert_entry, rejected. simpl.
    destruct (row_of (new_entry now (JString app_text) raw (JString url) c))
      as [err|row] eqn:Hrow.
    - exists (Supabase.code err), (Supabase.message err). split; [reflexivity|].
      eapply row_of_error; eassumption.
    - destruct (row_of_columns _ _ Hrow) as (_ & Hem & _).
      simpl in Hem. apply varchar_in_trimmed in Hem.
      unfold normalize in Hbad. rewrite Hem, Hbad. simpl.
      exists "23514", "valid_email_format". split; [reflexivity|discriminate]. }
  destruct Hins as (code & msg & Hi & Hc).
  rewrite (serve_insert_error _ _ _ _ _ _ _ _ _ _ Hwf Hi Hc). simpl.
  split; [reflexivity|]. split; [reflexivity|]. eauto.
Qed.

(** X18. In every reachable state each row of the table of entries
    satisfies the constraints of the migration: an email of 320 characters
    at most that matches [valid_email_format], an application that is in
    the table of applications, and a country of two characters at most or
    NULL. *)
Theorem schema_holds_in_reachable_states db :
  reachable db -> satisfies_schema db.
Proof.
  induction 1 as [db Hempty|id app db Hreach IH|now req db Hreach IH].
  - intros id e. rewrite Hempty, lookup_empty. discriminate.
  - intros i e He. simpl in He. destruct (IH i e He) as (Hl & Hf & Hfk & Hc).
    repeat split; try assumption. simpl.
    destruct Hfk as [x Hx]. destruct (decide (id = application_id e)) as [->|Hne].
    + rewrite lookup_insert_eq. eauto.
    + rewrite lookup_insert_ne by assumption. eauto.
  - apply serve_schema. assumption.
Qed.

End Entries.

(* ===================================================================== *)
(** ** Emails, as stored and as checked *)
(* ===================================================================== *)

Module Emails.
Import JS Handler Pg StringFacts Waitlist WaitlistFacts Sessions NormalizeFacts.
#[local] Existing Instance Pg.client.

(** X19. Lower-casing and trimming twice is lower-casing and trimming
    once: what the handler stores for an email is what it would store for
    the stored text. *)
Theorem normalize_idempotent raw :
  trim (toLowerCase (trim (toLowerCase raw))) = trim (toLowerCase raw).
Proof.
  rewrite (toLowerCase_fixed (trim (toLowerCase raw))).
  - apply trim_idempotent.
  - apply all_chars_trim. apply toLowerCase_all_fixed.
Qed.

(** X20. In every reachable state each stored email is normalized:
    lower-casing and trimming it changes nothing, and it has none of the
    letters A-Z. *)
Theorem stored_emails_are_normalized db id e :
  reachable db ->
  waitlist_entries db !! id = Some e ->
  trim (toLowerCase (email e)) = email e /\ lower_case (email e).
Proof.
  intros Hreach He.
  destruct (proj2 (reachable_invariant db Hreach) id e He) as [raw ->].
  split.
  - apply normalize_twice.
  - apply normalize_lower_case.
Qed.

(** X21. The check constraint [valid_email_format] accepts exactly the
    texts made of a local part of one or more of [A-Za-z0-9._%+-], an at
    sign, a domain of one or more of [A-Za-z0-9.-], a dot, and two or more
    letters. *)
Theorem check_constraint_pattern s :
  valid_email_format s = true <-> matches_email_pattern s.
Proof.
  unfold valid_email_format, matches_email_pattern. split.
  - intros Hv.
    destruct (split_first "@" s) as [[loc rest]|] eqn:H1; [|discriminate].
    destruct (split_last "." rest) as [[dom tld]|] eqn:H2; [|discriminate].
    apply split_first_append in H1. apply split_last_append in H2. subst.
    repeat (apply andb_true_iff in Hv as [Hv ?]).
    exists loc, dom, tld.
    repeat match goal with
           | H : (_ <=? _)%nat = true |- _ => apply Nat.leb_le in H
           end.
    repeat split; assumption.
  - intros (loc & dom & tld & -> & Hl1 & Hl2 & Hd1 & Hd2 & Ht1 & Ht2).
    rewrite split_first_found.
    2:{ eapply all_chars_impl; [|exact Hl2].
        intros c Hc. apply negb_true_iff. revert c Hc.
        apply class_without. reflexivity. }
    rewrite split_last_found.
    2:{ eapply all_chars_impl; [|exact Ht2].
        intros c Hc. apply negb_true_iff. revert c Hc.
        apply class_without. reflexivity. }
    apply Nat.leb_le in Hl1, Hd1, Ht1.
    rewrite Hl1, Hl2, Hd1, Hd2, Ht1, Ht2. reflexivity.
Qed.

End Emails.

(* ===================================================================== *)
(** ** The page and the handler together *)
(* ===================================================================== *)

Module FrontendFacts.
Import JS Supabase Handler HandlerFacts Answers Frontend.

(** The text shown for each answer to a POST. *)
Lemma trace_display {DB : Type} `{Client DB} now req (db : DB) out :
  trace now req db out ->
  exists v t,
    response_json (response out) = Return v /\
    getDisplayMessage v = Return (Shown t) /\
    In t friendly /\
    (response out = missing_required_fields ->
     t = "Please enter a valid email address.").
Proof.
  intros Ht.
  destruct (trace_forms _ _ _ _ Ht) as [[_ [Hf|[Hf|[Hf|[id Hf]]]]]|[Hf _]];
    rewrite Hf; eexists; eexists;
    (split; [reflexivity|]); (split; [reflexivity|]);
    (split; [simpl; auto 10|]); try reflexivity; discriminate.
Qed.

End FrontendFacts.

Module Page.
Import JS Supabase Handler HandlerFacts Answers Frontend FrontendFacts.

(** X22. Every answer the handler gives to a POST has a text of its own
    in [getDisplayMessage]: the welcome or one of the four of the table.
    The only answer shown through the generic "Error: ..." text is 405
    "Method not allowed". *)
Theorem display_of_every_answer {DB : Type} `{Client DB} now req (db : DB) :
  method req <> "OPTIONS" ->
  exists v t,
    response_json (response (serve now req db)) = Return v /\
    getDisplayMessage v = Return (Shown t) /\
    ((method req = "POST" /\ In t friendly) \/
     (method req <> "POST" /\ t = "Error: Method not allowed")).
Proof.
  intros Hno.
  destruct (serve_forms now req db) as [[Ho Hs]|[(Ho & Hp & Hs)|[Hp Ht]]].
  - contradiction.
  - rewrite Hs. simpl.
    eexists. eexists. split; [reflexivity|]. split; [reflexivity|].
    right. split; [assumption|reflexivity].
  - destruct (trace_display _ _ _ _ Ht) as (v & t & Hv & Hd & Hin & _).
    exists v, t. split; [assumption|]. split; [assumption|].
    left. split; assumption.
Qed.

(** X23. When the request of [joinWaitlist] reaches the handler, whatever
    the configuration, the page, the email, the country, the client and
    the state of the server, the result is shown with the welcome or with
    one of the four texts of the table, never with the generic text; an
    empty email is shown "Please enter a valid email address.". *)
Theorem joinWaitlist_is_displayed {DB : Type} `{Client DB}
    cfg href email country now (db : DB) :
  exists t,
    getDisplayMessage
      (joinWaitlist cfg href (fun req => Return (response (serve now req db)))
         email country)
    = Return (Shown t) /\
    In t friendly /\
    (email = EmptyString \/ APPLICATION_ID cfg = EmptyString \/ href = EmptyString ->
     t = "Please enter a valid email address.").
Proof.
  unfold joinWaitlist.
  assert (Hm : method (request_of cfg href email country) = "POST") by reflexivity.
  assert (Ht := serve_trace now _ db Hm).
  destruct (trace_display _ _ _ _ Ht) as (v & t & Hv & Hd & Hin & Hmiss).
  rewrite Hv. exists t. split; [assumption|]. split; [assumption|].
  intros Hempty. apply Hmiss.
  rewrite (serve_post _ _ _ Hm).
  erewrite try_block_early; [reflexivity|].
  eapply validate_missing; [reflexivity|reflexivity|].
  simpl. unfold required_present.
  destruct Hempty as [->|[->| ->]]; simpl;
    rewrite ?andb_false_r; reflexivity.
Qed.

(** X24. When [fetch] throws, [joinWaitlist] returns
    [{success:false, message:"Network error: " + the message}], which is
    shown through the generic text, "Error: Network error: ...". *)
Theorem network_error_is_generic cfg href fetch email country e :
  fetch (request_of cfg href email country) = Throw e ->
  joinWaitlist cfg href fetch email country = network_error e /\
  getDisplayMessage (joinWaitlist cfg href fetch email country)
    = Return (Shown ("Error: " ++ "Network error: " ++ error_message e)).
Proof.
  intros Hf. unfold joinWaitlist. rewrite Hf. split; reflexivity.
Qed.

End Page.

(* ===================================================================== *)
(** ** More of the contract on sample requests *)
(* ===================================================================== *)

Module MoreChecks.
Import JS Handler Pg Waitlist Sessions Frontend Sample MoreSamples.
#[local] Existing Instance Pg.client.

Lemma duplicate_only_from_23505_witness :
  exists row db1' e,
    reaches_insert later join_us db1 row db1' /\
    Supabase.error (fst (Supabase.insert_entry row db1')) = Some e /\
    Supabase.code e = "23505".
Proof.
  apply (@Replies.duplicate_only_from_23505 Database Pg.client later join_us db1).
  vm_compute. reflexivity.
Defined.

Lemma non_string_email_is_500_witness :
  serve noon numeric_email db0 =
    {| response := internal_server_error; database := db0;
       console := [TypeError "email.toLowerCase is not a function"] |}.
Proof.
  apply (@Replies.non_string_email_is_500 Database Pg.client noon numeric_email db0
           (JObject [ ("applicationId", JString app1);
                      ("email", JNumber "42");
                      ("sourceUrl", JString "http://localhost:3000") ])
           (Supabase.resolved app1) db0 app1).
  - reflexivity.
  - reflexivity.
  - discriminate.
  - discriminate.
  - vm_compute. reflexivity.
  - intros s. vm_compute. discriminate.
  - vm_compute. reflexivity.
  - reflexivity.
  - reflexivity.
Defined.

Lemma other_insert_error_is_500_witness :
  serve noon join_usa db0 =
    {| response := internal_server_error;
       database := snd (gen_random_uuid db0);
       console := [Thrown "22001" "value too long for type character varying"] |}.
Proof.
  eapply (@Replies.other_insert_error_is_500 Database Pg.client noon join_usa db0
            _ db0 (Supabase.failed "22001" "value too long for type character varying")
            (snd (gen_random_uuid db0))
            {| Supabase.code := "22001";
               Supabase.message := "value too long for type character varying" |}).
  - split; [reflexivity | vm_compute; reflexivity].
  - vm_compute. reflexivity.
  - reflexivity.
  - vm_compute. discriminate.
Defined.

Lemma stored_row_columns_witness :
  exists app ctry,
    uuid_in app1 = Some app /\
    country_in (or_else (JString "US") JNull) = inr ctry /\
    (truthy (JString "US") = false -> ctry = None) /\
    response (serve noon join_us db0) = joined (next_uuid db0) /\
    waitlist_entries (database (serve noon join_us db0)) !! next_uuid db0 =
      Some {| application_id := app;
              email := trim (toLowerCase "  User@Example.com ");
              source_url := "http://localhost:3000"; country := ctry;
              created_at := noon |}.
Proof.
  apply (Entries.stored_row_columns noon join_us db0 app1 "  User@Example.com "
           "http://localhost:3000" (JString "US")).
  - split; [reflexivity|]. eexists. repeat split; reflexivity.
  - vm_compute. reflexivity.
Defined.

Lemma rows_are_kept_witness :
  waitlist_entries
    (snd (serve_all [(later, join_us); (later, bad_email); (later, join_usa)] db1))
    !! id1 = Some row1 /\
  applications
    (snd (serve_all [(later, join_us); (later, bad_email); (later, join_usa)] db1))
    = applications db1.
Proof.
  apply (Entries.rows_are_kept
           [(later, join_us); (later, bad_email); (later, join_usa)] db1 id1 row1).
  vm_compute. reflexivity.
Defined.



Lemma malformed_email_is_500_witness :
  response (serve noon bad_email db0) = internal_server_error /\
  waitlist_entries (database (serve noon bad_email db0)) = waitlist_entries db0 /\
  exists code msg,
    console (serve noon bad_email db0) = [Thrown code msg] /\ code <> "23505".
Proof.
  apply (Entries.malformed_email_is_500 noon bad_email db0 app1 "invalid-email"
           "http://localhost:3000" (JString "US") app1).
  - split; [reflexivity|]. eexists. repeat split; reflexivity.
  - vm_compute. reflexivity.
  - eexists. vm_compute. reflexivity.
  - discriminate.
  - discriminate.
  - vm_compute. reflexivity.
Defined.

Lemma schema_holds_in_reachable_states_witness : satisfies_schema db1.
Proof.
  apply (Entries.schema_holds_in_reachable_states db1).
  apply reachable_serve. apply reachable_empty. reflexivity.
Defined.

Lemma stored_emails_are_normalized_witness :
  trim (toLowerCase (email row1)) = email row1 /\ lower_case (email row1).
Proof.
  apply (Emails.stored_emails_are_normalized db1 id1 row1).
  - apply reachable_serve. apply reachable_empty. reflexivity.
  - vm_compute. reflexivity.
Defined.

Lemma display_of_every_answer_witness :
  exists v t,
    response_json (response (serve later join_us db1)) = Return v /\
    getDisplayMessage v = Return (Shown t) /\
    ((method join_us = "POST" /\ In t friendly) \/
     (method join_us <> "POST" /\ t = "Error: Method not allowed")).
Proof.
  apply (@Page.display_of_every_answer Database Pg.client later join_us db1).
  vm_compute. discriminate.
Defined.

Lemma network_error_is_generic_witness :
  joinWaitlist config "http://localhost:3000" offline "a@example.com" None
    = network_error (TypeError "Failed to fetch") /\
  getDisplayMessage
    (joinWaitlist config "http://localhost:3000" offline "a@example.com" None)
    = Return (Shown ("Error: " ++ "Network error: "
                       ++ error_message (TypeError "Failed to fetch"))).
Proof.
  apply (Page.network_error_is_generic config "http://localhost:3000" offline
           "a@example.com" None (TypeError "Failed to fetch")).
  reflexivity.
Defined.

(** A sourceUrl that is no finite number is sent as [null], which the
    column refuses. *)
Example infinite_url_is_500 :
  response (serve noon infinite_url db0) = internal_server_error /\
  console (serve noon infinite_url db0) = [Thrown "23502" "source_url"] /\
  waitlist_entries (database (serve noon infinite_url db0)) = ∅.
Proof. repeat split; vm_compute; reflexivity. Qed.

(** A country that is no finite number is sent as [null] and stored as
    NULL. *)
Example infinite_country_is_null :
  response (serve noon infinite_country db0) = joined id1 /\
  country <$> (waitlist_entries (database (serve noon infinite_country db0)) !! id1)
    = Some None.
Proof. split; vm_compute; reflexivity. Qed.

(** An applicationId that has no text ends the lookup before it is sent. *)
Example object_id_is_500 :
  serve noon object_id db0 =
    {| response := internal_server_error; database := db0;
       console := [TypeError "Cannot convert object to primitive value"] |}.
Proof. vm_compute. reflexivity. Qed.

(** A registered email sent again with a country the column refuses is
    answered 500, the country being read before the key is tried. *)
Example registered_email_long_country_is_500 :
  response (serve later join_us_again_usa db1) = internal_server_error /\
  console (serve later join_us_again_usa db1)
    = [Thrown "22001" "value too long for type character varying"].
Proof. split; vm_compute; reflexivity. Qed.

(** The headers are found under their names in any case. *)
Example preflight_content_type :
  header "content-type" (response (serve noon preflight db0))
    = Some "text/plain;charset=UTF-8" /\
  header "ACCESS-CONTROL-ALLOW-ORIGIN" (response (serve noon preflight db0))
    = Some "*" /\
  header "Authorization" (response (serve noon preflight db0)) = None.
Proof. repeat split; vm_compute; reflexivity. Qed.

(** The page against the tables: a first call joins, a second is told it
    is on the list already. *)
Example joinWaitlist_twice :
  getDisplayMessage
    (joinWaitlist config "http://localhost:3000"
       (fun req => Return (response (serve noon req db0))) "a@example.com" None)
    = Return (Shown welcome) /\
  getDisplayMessage
    (joinWaitlist config "http://localhost:3000"
       (fun req => Return (response (serve later req db1))) "user@example.com" None)
    = Return (Shown "You're already on our waitlist! We'll be in touch soon.").
Proof. split; vm_compute; reflexivity. Qed.

End MoreChecks.
